(** * KMeansLoss: the clustering part of the encoder gradient

    A shallow embedding of
    [pydbm/clustering/computableclusteringloss/k_means_loss.pyx].

    Numbers are IEEE 754 binary64 values ([np.float64]), taken from the
    specification of floating-point arithmetic of the Standard Library
    ([SpecFloat], precision 53, [emax] 1024, rounding to nearest even), so
    NaN, the infinities, signed zeros, overflow and rounding are those of
    the program.

    Arrays are nested lists in row-major order and rectangular; the extents
    of the inner axes are read off the first row and the first cell, so an
    array with no sample has inner extents 0.  A NumPy call that raises is
    a [Raise] in the [result] type; warnings are not modelled.

    The NumPy functions are written after their documented behaviour:
    [np.nanmean] replaces NaN by zero, sums the slice from 0.0 in index
    order and divides by the number of entries that were not NaN; [argmax]
    returns the first index of the maximum and treats NaN as maximal;
    [np.float] is the double precision type, so [astype(np.float)] leaves a
    float64 array as it is.

    The order of summation is NumPy's on the cluster axis, for every K, and
    on the trailing axis as long as it has fewer than 8 entries.  A longer
    contiguous axis NumPy adds pairwise, with 8 running sums, which can
    change a mean, and with it a label.  What is stated about the values of
    the collapsed target distribution is therefore stated for M < 8, or for
    the matrix that [argmax] receives, whichever way it was obtained. *)

From Stdlib Require Import ZArith List Bool Lia PeanoNat SpecFloat.
Import ListNotations.

(** ** binary64 *)

Module Float64.

Definition prec : Z := 53.
Definition emax : Z := 1024.

Definition float64 : Type := spec_float.

Definition add : float64 -> float64 -> float64 := SFadd prec emax.
Definition mul : float64 -> float64 -> float64 := SFmul prec emax.
Definition div : float64 -> float64 -> float64 := SFdiv prec emax.

(** [x <= y] of IEEE 754: false as soon as one side is NaN. *)
Definition leb : float64 -> float64 -> bool := SFleb.
Definition ltb : float64 -> float64 -> bool := SFltb.

(** The integer [z], rounded to binary64 (what a cast from [np.intp] does). *)
Definition of_Z (z : Z) : float64 := binary_normalize prec emax z 0 false.
Definition of_nat (n : nat) : float64 := of_Z (Z.of_nat n).

(** The decimal literal [n/d] for small integers [n] and [d], as the
    correctly rounded quotient: [dec 9 10] is the double written [0.9]. *)
Definition dec (n d : Z) : float64 := div (of_Z n) (of_Z d).

(** [0.0] and [1.0]. *)
Definition zero : float64 := S754_zero false.
Definition one : float64 := S754_finite false 4503599627370496 (-52).
Definition nan : float64 := S754_nan.
Definition inf : float64 := S754_infinity false.
Definition neg_inf : float64 := S754_infinity true.

(** The scalar kernel of [np.square]. *)
Definition square (x : float64) : float64 := mul x x.

Definition is_nan (x : float64) : bool :=
  match x with S754_nan => true | _ => false end.

Definition is_zero (x : float64) : bool :=
  match x with S754_zero _ => true | _ => false end.

(** Neither NaN nor an infinity: [np.isfinite]. *)
Definition is_finite (x : float64) : bool :=
  match x with S754_zero _ | S754_finite _ _ _ => true | _ => false end.

(** Finite and not zero. *)
Definition is_regular (x : float64) : bool :=
  match x with S754_finite _ _ _ => true | _ => false end.

(** [-x]. *)
Definition opp : float64 -> float64 := SFopp.

End Float64.

Import Float64.

(** ** Exceptions and results *)

Inductive exn : Type :=
| IndexError
| ValueError.

Inductive result (A : Type) : Type :=
| Ok (a : A)
| Raise (e : exn).

Arguments Ok {A} a.
Arguments Raise {A} e.

Definition bind {A B : Type} (r : result A) (k : A -> result B) : result B :=
  match r with
  | Ok a => k a
  | Raise e => Raise e
  end.

Notation "x <- r ;; k" := (bind r (fun x => k))
  (at level 61, r at next level, right associativity).

Fixpoint mapM {A B : Type} (f : A -> result B) (xs : list A) : result (list B) :=
  match xs with
  | [] => Ok []
  | x :: xs' => y <- f x ;; ys <- mapM f xs' ;; Ok (y :: ys)
  end.

(** ** Arrays *)

Definition ndarray1 : Type := list float64.
Definition ndarray2 : Type := list (list float64).
Definition ndarray3 : Type := list (list (list float64)).

(** [a.shape[0]], [a.shape[1]] and [a.shape[2]].  An array is rectangular,
    so the first row and the first cell give the extents of the inner axes. *)
Definition shape0 {A : Type} (a : list A) : nat := length a.
Definition shape1 {A : Type} (a : list (list A)) : nat := length (hd [] a).
Definition shape2 {A : Type} (a : list (list (list A))) : nat :=
  length (hd [] (hd [] a)).

(** The arrays of shape [n * k] and [n * k * d]. *)
Definition rect2 {A : Type} (n k : nat) (a : list (list A)) : Prop :=
  length a = n /\ Forall (fun row => length row = k) a.

Definition rect3 {A : Type} (n k d : nat) (a : list (list (list A))) : Prop :=
  length a = n /\ Forall (rect2 k d) a.

(** ** The NumPy operations the method calls *)

(** [np.zeros((n, k))]. *)
Definition np_zeros2 (n k : nat) : ndarray2 := repeat (repeat zero k) n.

(** [xs[j] = v] on one axis; an index past the end raises. *)
Fixpoint setitem1 {A : Type} (xs : list A) (j : nat) (v : A) : result (list A) :=
  match xs, j with
  | [], _ => Raise IndexError
  | _ :: xs', O => Ok (v :: xs')
  | x :: xs', S j' => ys <- setitem1 xs' j' v ;; Ok (x :: ys)
  end.

(** [a[i, j] = v]. *)
Fixpoint setitem2 {A : Type} (a : list (list A)) (i j : nat) (v : A)
  : result (list (list A)) :=
  match a, i with
  | [], _ => Raise IndexError
  | row :: a', O => row' <- setitem1 row j v ;; Ok (row' :: a')
  | row :: a', S i' => b <- setitem2 a' i' j v ;; Ok (row :: b)
  end.

(** [np.expand_dims(a, axis=2)]. *)
Definition np_expand_dims2 (a : ndarray2) : ndarray3 :=
  map (map (fun x => [x])) a.

(** [np.square]. *)
Definition np_square (a : ndarray3) : ndarray3 :=
  map (map (map square)) a.

(** One axis of a broadcast binary operation: extents agree, or one of them
    is 1 and that operand is repeated; anything else raises [ValueError]. *)
Definition broadcast {A B C : Type} (f : A -> B -> result C)
  (xs : list A) (ys : list B) : result (list C) :=
  if length xs =? length ys then
    mapM (fun xy => f (fst xy) (snd xy)) (combine xs ys)
  else
    match xs, ys with
    | [x], _ => mapM (fun y => f x y) ys
    | _, [y] => mapM (fun x => f x y) xs
    | _, _ => Raise ValueError
    end.

(** [a * b] on arrays of three axes. *)
Definition np_multiply3 (a b : ndarray3) : result ndarray3 :=
  broadcast (broadcast (broadcast (fun x y => Ok (mul x y)))) a b.

(** [np.nanmean] along one axis: NaN entries are replaced by zero, the
    slice is summed, and the sum is divided by the number of entries that
    were not NaN (no such entry: 0/0, a NaN). *)
Definition nan_to_zero (x : float64) : float64 :=
  if is_nan x then zero else x.

Definition np_sum (xs : ndarray1) : float64 := fold_left add xs zero.

Definition count_not_nan (xs : ndarray1) : nat :=
  length (filter (fun x => negb (is_nan x)) xs).

Definition nanmean1 (xs : ndarray1) : float64 :=
  div (np_sum (map nan_to_zero xs)) (of_nat (count_not_nan xs)).

(** The slices of a two-axis array along its first axis (its columns). *)
Definition column {A : Type} (dflt : A) (rows : list (list A)) (d : nat) : list A :=
  map (fun row => nth d row dflt) rows.

Definition columns {A : Type} (dflt : A) (rows : list (list A)) : list (list A) :=
  map (column dflt rows) (seq 0 (shape1 rows)).

(** [np.nanmean(a, axis=1)] and [np.nanmean(a, axis=2)]. *)
Definition np_nanmean_axis1 (a : ndarray3) : ndarray2 :=
  map (fun rows => map nanmean1 (columns nan rows)) a.

Definition np_nanmean_axis2 (a : ndarray3) : ndarray2 :=
  map (map nanmean1) a.

(** [a.reshape((a.shape[0], a.shape[1]))] on an array of three axes: the
    sizes agree exactly when every cell holds one entry. *)
Definition reshape_3_to_2 (a : ndarray3) : result ndarray2 :=
  mapM (mapM (fun cell =>
                match cell with
                | [x] => Ok x
                | _ => Raise ValueError
                end)) a.

(** [argmax] of one row.  The scan keeps the first maximum; a NaN is
    maximal and ends the scan.  [mp] is the running maximum, found at
    [max_ind]; [i] is the index of the head of [xs]. *)
Fixpoint argmax_scan (mp : float64) (max_ind i : nat) (xs : ndarray1) : nat :=
  match xs with
  | [] => max_ind
  | x :: xs' =>
      if is_nan mp then max_ind
      else if negb (leb x mp) then argmax_scan x i (S i) xs'
      else argmax_scan mp max_ind (S i) xs'
  end.

Definition argmax1 (row : ndarray1) : result nat :=
  match row with
  | [] => Raise ValueError
  | x :: xs => Ok (argmax_scan x 0 1 xs)
  end.

(** [a.argmax(axis=1)]. *)
Definition argmax_axis1 (a : ndarray2) : result (list nat) := mapM argmax1 a.

(** ** The class *)

Record KMeansLoss : Type := { __weight : float64 }.

(** The default of the argument [weight]: [0.125]. *)
Definition default_weight : float64 := dec 1 8.

(** [__init__(self, weight=0.125)]: [self.__weight = weight]; a call
    without the argument is [__init__ None]. *)
Definition __init__ (weight : option float64) : KMeansLoss :=
  {| __weight := match weight with
                 | Some w => w
                 | None => default_weight
                 end |}.

(** [__assign_label], lines 66 to 68: the target distribution as an
    [N * K] matrix.  After [np.nanmean] the array has two axes already and
    the reshape leaves it as it is. *)
Definition collapse_trailing (q_arr : ndarray3) : result ndarray2 :=
  if 1 <? shape2 q_arr
  then Ok (np_nanmean_axis2 q_arr)
  else reshape_3_to_2 q_arr.

(** [__assign_label(self, q_arr)]; it does not use [self]. *)
Definition __assign_label (q_arr : ndarray3) : result (list nat) :=
  q_arr <- collapse_trailing q_arr ;;
  argmax_axis1 q_arr.

(** The loop [for i in range(label_arr.shape[0]): t_hot_arr[i, label_arr[i]] = 1];
    [i] is the index of the head of [labels]. *)
Fixpoint fill_one_hot (t_hot_arr : ndarray2) (i : nat) (labels : list nat)
  : result ndarray2 :=
  match labels with
  | [] => Ok t_hot_arr
  | l :: labels' =>
      t <- setitem2 t_hot_arr i l one ;;
      fill_one_hot t (S i) labels'
  end.

(** Lines 56 to 59: the mask of shape [N * K * 1]. *)
Definition one_hot_mask (label_arr : list nat) (k : nat) : result ndarray3 :=
  t_hot_arr <- fill_one_hot (np_zeros2 (shape0 label_arr) k) 0 label_arr ;;
  Ok (np_expand_dims2 t_hot_arr).

(** Line 60: the masked squared differences,
    [t_hot_arr.astype(np.float) * np.square(delta_arr)]. *)
Definition delta_kmeans (label_arr : list nat) (delta_arr : ndarray3)
  : result ndarray3 :=
  t_hot_arr <- one_hot_mask label_arr (shape1 delta_arr) ;;
  np_multiply3 t_hot_arr (np_square delta_arr).

(** Line 62: [delta_kmeans_z_arr * self.__weight]. *)
Definition scale (w : float64) (a : ndarray2) : ndarray2 :=
  map (map (fun x => mul x w)) a.

(** [compute_clustering_loss].  [None] is Python's [None]. *)
Definition compute_clustering_loss (self : KMeansLoss)
  (observed_arr reconstructed_arr feature_arr : ndarray2)
  (delta_arr q_arr : ndarray3) (p_arr : ndarray2)
  : result (ndarray2 * option ndarray2 * option ndarray2) :=
  label_arr <- __assign_label q_arr ;;
  delta_kmeans_arr <- delta_kmeans label_arr delta_arr ;;
  let delta_kmeans_z_arr := np_nanmean_axis1 delta_kmeans_arr in
  let delta_kmeans_z_arr := scale (__weight self) delta_kmeans_z_arr in
  Ok (delta_kmeans_z_arr, None, None).

(** ** The worked example *)

Definition ex_delta : ndarray3 :=
  [ [ [of_Z 1]; [of_Z 3] ]; [ [of_Z 2]; [of_Z 5] ] ].

Definition ex_q : ndarray3 :=
  [ [ [dec 9 10]; [dec 1 10] ]; [ [dec 2 10]; [dec 8 10] ] ].

(** ** Closed forms and predicates used in the statements *)

(** *** Numbers *)

(** [sign_is s x]: [x] is a number (not NaN) whose sign bit is [s]. *)
Definition sign_is (s : bool) (x : float64) : Prop :=
  match x with
  | S754_zero s' | S754_infinity s' | S754_finite s' _ _ => s' = s
  | S754_nan => False
  end.

(** An entry of [delta_arr] is tame when it is NaN or its square is finite
    (it is neither infinite nor so large that squaring overflows). *)
Definition tame (y : float64) : Prop :=
  is_nan y = true \/ is_finite (square y) = true.

(** Every entry of the slice [col] other than the one at [l] is tame. *)
Definition tame_others (l : nat) (col : ndarray1) : Prop :=
  forall k y, k <> l -> nth_error col k = Some y -> tame y.

(** A number's place in the order: its class first (negative infinity,
    negative, zero, positive, positive infinity), then exponent and
    significand, reversed for negative numbers. *)
Definition key (x : float64) : Z * Z * Z :=
  match x with
  | S754_infinity true => (-2, 0, 0)
  | S754_finite true m e => (-1, - e, - Zpos m)
  | S754_zero _ => (0, 0, 0)
  | S754_finite false m e => (1, e, Zpos m)
  | S754_infinity false => (2, 0, 0)
  | S754_nan => (3, 0, 0)
  end%Z.

Definition lex_compare (a b : Z * Z * Z) : comparison :=
  match a, b with
  | (a1, a2, a3), (b1, b2, b3) =>
      match (a1 ?= b1)%Z with
      | Eq => match (a2 ?= b2)%Z with
              | Eq => (a3 ?= b3)%Z
              | c => c
              end
      | c => c
      end
  end.

Ltac lex_order :=
  repeat match goal with
         | x : (Z * Z * Z)%type |- _ => destruct x as [[? ?] ?]
         end;
  unfold lex_compare in *;
  repeat match goal with
         | |- context [(?a ?= ?b)%Z] => destruct (Z.compare_spec a b)
         | H : context [(?a ?= ?b)%Z] |- _ => destruct (Z.compare_spec a b)
         end;
  try discriminate; try reflexivity; try lia.

(** *** Slices *)

(** The number of NaN entries of a slice. *)
Definition count_nan (xs : ndarray1) : nat := length (filter is_nan xs).

Definition nan_free (row : ndarray1) : Prop :=
  Forall (fun x => is_nan x = false) row.

(** [a] is the index of the maximum of [row] for the comparison of
    IEEE 754, the first one when the maximum occurs several times. *)
Definition is_first_max (row : ndarray1) (a : nat) : Prop :=
  a < length row /\
  (forall j, j < length row -> leb (nth j row nan) (nth a row nan) = true) /\
  (forall j, j < a -> ltb (nth j row nan) (nth a row nan) = true).

(** The order in which [np.max] and [argmax] look for the maximum: the
    order of the numbers, with NaN above them all. *)
Definition np_le (x y : float64) : bool := is_nan y || leb x y.
Definition np_lt (x y : float64) : bool := negb (np_le y x).

(** [a] is the index of the maximum of [row] in that order, the first one
    when the maximum occurs several times. *)
Definition is_first_np_max (row : ndarray1) (a : nat) : Prop :=
  a < length row /\
  (forall j, j < length row ->
     np_le (nth j row nan) (nth a row nan) = true) /\
  (forall j, j < a -> np_lt (nth j row nan) (nth a row nan) = true).

(** [a] is the index of the first NaN of [row]. *)
Definition is_first_nan (row : ndarray1) (a : nat) : Prop :=
  a < length row /\
  is_nan (nth a row nan) = true /\
  (forall j, j < a -> is_nan (nth j row nan) = false).

(** *** The mask and the masked tensor *)

(** The mask entry of cluster [k] for a sample labelled [l]. *)
Definition hot (l k : nat) : float64 := if k =? l then one else zero.

Definition one_hot_row (k l : nat) : ndarray1 := map (hot l) (seq 0 k).

Definition one_hot (k : nat) (labels : list nat) : ndarray3 :=
  map (fun l => map (fun h => [h]) (one_hot_row k l)) labels.

Definition masked_cell (h : float64) (cell : ndarray1) : ndarray1 :=
  map (fun x => mul h (square x)) cell.

Definition masked_rows (l : nat) (rows : ndarray2) : ndarray2 :=
  map (fun hc => masked_cell (fst hc) (snd hc))
      (combine (one_hot_row (length rows) l) rows).

Definition masked (labels : list nat) (delta_arr : ndarray3) : ndarray3 :=
  map (fun lr => masked_rows (fst lr) (snd lr)) (combine labels delta_arr).

(** The [K] cluster-axis entries of the masked tensor that come from the
    entries [col] of [delta_arr], for a sample labelled [l]. *)
Definition mcol (l : nat) (col : ndarray1) : ndarray1 :=
  map (fun hx => mul (fst hx) (square (snd hx)))
      (combine (one_hot_row (length col) l) col).

(** The value of an integer-valued binary64 number. *)
Definition Z_of_entry (x : float64) : Z :=
  match x with
  | S754_finite s m e => cond_Zopp s (Z.shiftl (Zpos m) e)
  | _ => 0%Z
  end.

(** The sum of all the entries of a mask, in exact arithmetic. *)
Definition mask_total (mask : ndarray3) : Z :=
  fold_right Z.add 0%Z (map Z_of_entry (concat (concat mask))).

(** *** The collapsed target distribution *)

(** The entry that stands for one cell of the target distribution. *)
Definition reduce_cell (cell : ndarray1) : float64 :=
  match cell with
  | [x] => x
  | _ => nanmean1 cell
  end.

(** The collapsed target distribution of a well-shaped [q_arr]. *)
Definition collapsed (q_arr : ndarray3) : ndarray2 :=
  map (map reduce_cell) q_arr.

(** *** Inputs of the examples *)

Definition q_first_of_two : ndarray3 := [ [ [dec 9 10]; [dec 1 10] ] ].

(** A target distribution of shape 1 * 3 * 1 whose label is 0. *)
Definition q_first_of_three : ndarray3 :=
  [ [ [dec 8 10]; [dec 1 10]; [dec 1 10] ] ].

(** Three clusters in the target distribution, the third one selected. *)
Definition q_third_of_three : ndarray3 :=
  [ [ [dec 1 10]; [dec 1 10]; [dec 8 10] ]; [ [dec 1 10]; [dec 1 10]; [dec 8 10] ] ].

Definition q_one_cluster : ndarray3 := [ [ [one] ]; [ [one] ] ].

(** A target distribution of shape 1 * 2 * 2 without NaN: the two estimates
    of the first cluster are the two infinities. *)
Definition q_infinities : ndarray3 := [ [ [inf; neg_inf]; [one; one] ] ].

(** A target distribution of shape 2 * 2 * 2 with finite entries. *)
Definition q_two_estimates : ndarray3 :=
  [ [ [dec 9 10; dec 7 10]; [dec 1 10; dec 3 10] ];
    [ [dec 2 10; dec 4 10]; [dec 8 10; dec 6 10] ] ].

(** A target distribution of shape 1 * 4 * 2: two clusters have no estimate
    but NaN. *)
Definition q_two_nan_clusters : ndarray3 :=
  [ [ [dec 1 10; dec 1 10]; [nan; nan]; [dec 9 10; dec 9 10]; [nan; nan] ] ].

(** A target distribution of shape 1 * 3 * 2 whose three clusters have the
    same mean, 2.0. *)
Definition q_equal_means : ndarray3 :=
  [ [ [of_Z 1; of_Z 3]; [of_Z 2; of_Z 2]; [of_Z 3; of_Z 1] ] ].

(** A slice of two clusters whose selected entry is the NaN. *)
Definition delta_selected_nan : ndarray3 := [ [ [nan]; [of_Z 3] ] ].

Definition delta_five : ndarray3 := [ [ [of_Z 5] ] ].
Definition q_single : ndarray3 := [ [ [one] ] ].

(** The entry the claim announces: the selected square over K minus the
    number of NaN entries among the other clusters, times the weight. *)
Definition C9_claimed_entry (w x : float64) (k nans : nat) : float64 :=
  mul (div (square x) (of_nat (k - nans))) w.

(** ** Facts about binary64 arithmetic *)

Section Rounding.

Lemma shr_1_nonneg mrs :
  (0 <= shr_m mrs)%Z -> (0 <= shr_m (shr_1 mrs))%Z.
Proof.
  destruct mrs as [m r s]; simpl.
  destruct m as [|p|p]; simpl; try lia; destruct p; simpl; lia.
Qed.

Lemma iter_shr_1_nonneg n : forall mrs,
  (0 <= shr_m mrs)%Z -> (0 <= shr_m (iter_pos shr_1 n mrs))%Z.
Proof.
  induction n as [n IH|n IH|]; intros mrs H; simpl.
  - apply IH, IH, shr_1_nonneg, H.
  - apply IH, IH, H.
  - apply shr_1_nonneg, H.
Qed.

Lemma shr_fexp_nonneg m e l :
  (0 <= m)%Z -> (0 <= shr_m (fst (shr_fexp prec emax m e l)))%Z.
Proof.
  intros H. unfold shr_fexp, shr.
  assert (H0 : (0 <= shr_m (shr_record_of_loc m l))%Z)
    by (destruct l as [|[]]; exact H).
  destruct (fexp prec emax (Zdigits2 m + e) - e)%Z; simpl; auto.
  apply iter_shr_1_nonneg, H0.
Qed.

Lemma round_nearest_even_nonneg m l :
  (0 <= m)%Z -> (0 <= round_nearest_even m l)%Z.
Proof.
  intros H. destruct l as [|[]]; simpl; try lia.
  destruct (Z.even m); lia.
Qed.

End Rounding.

(** Rounding a non-negative significand never produces NaN and keeps the
    sign it is given. *)
Lemma binary_round_aux_sign s m e l :
  (0 <= m)%Z -> sign_is s (binary_round_aux prec emax s m e l).
Proof.
  intros H. unfold binary_round_aux.
  pose proof (shr_fexp_nonneg m e l H) as H1.
  destruct (shr_fexp prec emax m e l) as [mrs' e']. simpl in H1.
  pose proof (round_nearest_even_nonneg _ (loc_of_shr_record mrs') H1) as H2.
  pose proof (shr_fexp_nonneg _ e' loc_Exact H2) as H3.
  destruct (shr_fexp prec emax _ e' loc_Exact) as [mrs'' e'']. simpl in H3.
  destruct (shr_m mrs'') as [|p|p]; [reflexivity| |lia].
  destruct (_ <=? _)%Z; reflexivity.
Qed.

Lemma binary_round_sign s m e :
  sign_is s (binary_round prec emax s m e).
Proof.
  unfold binary_round.
  destruct (shl_align m e _) as [mz ez].
  apply binary_round_aux_sign. lia.
Qed.

Lemma sign_is_not_nan s x : sign_is s x -> is_nan x = false.
Proof. destruct x; simpl; intros H; auto; contradiction. Qed.

Lemma mul_nan_l x : mul nan x = nan.
Proof. destruct x; reflexivity. Qed.

Lemma mul_nan_r x : mul x nan = nan.
Proof. destruct x; reflexivity. Qed.

Lemma mul_comm x y : mul x y = mul y x.
Proof.
  destruct x as [sx|sx| |sx mx ex], y as [sy|sy| |sy my ey]; simpl;
    try reflexivity; try (rewrite xorb_comm; reflexivity).
  unfold mul, SFmul.
  rewrite (xorb_comm sx sy), (Pos.mul_comm mx my), (Z.add_comm ex ey).
  reflexivity.
Qed.

(** The product of two numbers is a number, except for zero times infinity. *)
Lemma mul_sign sx sy x y :
  sign_is sx x -> sign_is sy y ->
  is_finite x || negb (is_zero y) = true ->
  is_finite y || negb (is_zero x) = true ->
  sign_is (xorb sx sy) (mul x y).
Proof.
  destruct x as [s1|s1| |s1 m1 e1], y as [s2|s2| |s2 m2 e2]; simpl;
    intros H1 H2 H3 H4; subst; try reflexivity; try contradiction;
    try discriminate.
  apply binary_round_aux_sign. lia.
Qed.

(** Scaling by a finite non-zero number keeps NaN where it is, and only
    there. *)
Lemma mul_regular_is_nan x w :
  is_regular w = true -> is_nan (mul x w) = is_nan x.
Proof.
  destruct w as [sw|sw| |sw mw ew]; intros Hw; try discriminate.
  destruct x as [sx|sx| |sx mx ex]; try reflexivity.
  eapply sign_is_not_nan. apply (binary_round_aux_sign (xorb sx sw)). lia.
Qed.

(** Where no rounding takes place (a zero, an infinity, NaN), scaling by
    [c * w] is scaling by [w], then by [c]. *)
Lemma mul_assoc_special x c w :
  is_regular c = true -> is_regular w = true ->
  is_regular (mul c w) = true -> is_regular x = false ->
  mul x (mul c w) = mul c (mul x w).
Proof.
  destruct c as [sc|sc| |sc mc ec]; intros Hc; try discriminate.
  destruct w as [sw|sw| |sw mw ew]; intros Hw; try discriminate.
  intros Hcw Hx.
  pose proof (binary_round_aux_sign (xorb sc sw) (Zpos (mc * mw)) (ec + ew)
                loc_Exact ltac:(lia)) as Hs.
  change (binary_round_aux prec emax (xorb sc sw) (Zpos (mc * mw)) (ec + ew)
            loc_Exact)
    with (mul (S754_finite sc mc ec) (S754_finite sw mw ew)) in Hs.
  destruct (mul (S754_finite sc mc ec) (S754_finite sw mw ew))
    as [s'|s'| |s' m' e']; try discriminate.
  simpl in Hs. subst s'.
  destruct x as [sx|sx| |sx mx ex]; try discriminate; simpl;
    try reflexivity; f_equal; destruct sx, sc, sw; reflexivity.
Qed.

(** A square is a number of positive sign, or NaN when its argument is. *)
Lemma square_sign x : is_nan x = false -> sign_is false (square x).
Proof.
  unfold square. destruct x as [s|s| |s m e]; simpl; intros H; try discriminate;
    try (destruct s; reflexivity).
  replace false with (xorb s s) by (destruct s; reflexivity).
  apply binary_round_aux_sign. lia.
Qed.

Lemma square_nan x : is_nan x = true -> square x = nan.
Proof. unfold square. destruct x; simpl; intros H; try discriminate; reflexivity. Qed.

Lemma mul_one_sign y : sign_is false y -> sign_is false (mul one y).
Proof.
  intros H. change false with (xorb false false).
  apply mul_sign; auto; try reflexivity.
  destruct y; reflexivity.
Qed.

(** [0.0 * y]: a zero for finite [y]; NaN for an infinity and for NaN. *)
Lemma mul_zero_finite y :
  sign_is false y -> is_finite y = true -> mul zero y = zero.
Proof.
  destruct y as [s|s| |s m e]; simpl; intros H F; subst;
    try discriminate; try contradiction; reflexivity.
Qed.

Lemma mul_zero_not_finite y : is_finite y = false -> mul zero y = nan.
Proof. destruct y; simpl; intros F; try discriminate; reflexivity. Qed.

Lemma add_zero_r x : sign_is false x -> add x zero = x.
Proof.
  destruct x as [s|s| |s m e]; simpl; intros H; subst;
    try contradiction; reflexivity.
Qed.

Lemma add_zero_l x : sign_is false x -> add zero x = x.
Proof.
  destruct x as [s|s| |s m e]; simpl; intros H; subst;
    try contradiction; reflexivity.
Qed.

Lemma add_not_nan acc x :
  is_nan acc = false -> is_finite x = true -> is_nan (add acc x) = false.
Proof.
  destruct acc as [sa|sa| |sa ma ea], x as [sx|sx| |sx mx ex];
    intros Ha Hx; try discriminate; try reflexivity;
    try (destruct sa, sx; reflexivity).
  unfold add, SFadd, binary_normalize.
  destruct (_ + _)%Z; [reflexivity| |];
    eapply sign_is_not_nan, binary_round_sign.
Qed.

Lemma div_zero_zero : div zero zero = nan.
Proof. reflexivity. Qed.

(** A number divided by a finite non-zero number is a number. *)
Lemma div_sign sx x sy my ey :
  sign_is sx x -> sign_is (xorb sx sy) (div x (S754_finite sy my ey)).
Proof.
  destruct x as [s|s| |s m e]; simpl; intros H; subst;
    try reflexivity; try contradiction.
  unfold div, SFdiv, SFdiv_core_binary.
  set (e' := Z.min _ _). set (sh := (e - ey - e')%Z).
  set (m' := match sh with
             | Z0 => Zpos m
             | Zpos _ => Z.shiftl (Zpos m) sh
             | Zneg _ => 0%Z
             end).
  assert (Hm : (0 <= m')%Z).
  { subst m'. destruct sh; try lia. apply Z.shiftl_nonneg. lia. }
  pose proof (Z.div_pos m' (Zpos my) Hm ltac:(lia)) as Hq.
  unfold Z.div in Hq.
  destruct (Z.div_eucl m' (Zpos my)) as [q r]. simpl in Hq.
  apply binary_round_aux_sign. exact Hq.
Qed.

Lemma div_zero_finite sy my ey : div zero (S754_finite sy my ey) = S754_zero sy.
Proof. reflexivity. Qed.

(** *** Counts as binary64 numbers *)

Lemma digits2_pos_iter_xO d : forall m,
  Zpos (digits2_pos (Pos.iter xO m d)) = (Zpos (digits2_pos m) + Zpos d)%Z.
Proof.
  induction d as [|d IH] using Pos.peano_ind; intros m.
  - simpl. lia.
  - rewrite Pos.iter_succ. cbn [digits2_pos].
    rewrite Pos2Z.inj_succ, IH. lia.
Qed.

Lemma digits2_pos_bound m : forall n : Z,
  (0 <= n)%Z -> (Zpos m < 2 ^ n)%Z -> (Zpos (digits2_pos m) <= n)%Z.
Proof.
  induction m as [m IH|m IH|]; intros n Hn H; simpl.
  - assert (n <> 0)%Z by (intros ->; simpl in H; lia).
    specialize (IH (n - 1)%Z ltac:(lia)).
    replace (2 ^ n)%Z with (2 * 2 ^ (n - 1))%Z in H
      by (rewrite <- Z.pow_succ_r by lia; f_equal; lia).
    lia.
  - assert (n <> 0)%Z by (intros ->; simpl in H; lia).
    specialize (IH (n - 1)%Z ltac:(lia)).
    replace (2 ^ n)%Z with (2 * 2 ^ (n - 1))%Z in H
      by (rewrite <- Z.pow_succ_r by lia; f_equal; lia).
    lia.
  - assert (n <> 0)%Z by (intros ->; simpl in H; lia). lia.
Qed.

(** A count between 1 and [2^53 - 1] converts to a positive finite number. *)
Lemma of_nat_finite n :
  0 < n -> (Z.of_nat n < 2 ^ 53)%Z ->
  exists m e, of_nat n = S754_finite false m e.
Proof.
  intros Hpos Hlt. unfold of_nat, of_Z.
  destruct (Z.of_nat n) as [|p|p] eqn:E; try lia.
  pose proof (digits2_pos_bound p 53 ltac:(lia) Hlt) as Hd.
  unfold binary_normalize, binary_round, shl_align.
  set (D := Zpos (digits2_pos p)) in *.
  assert (Hf : fexp prec emax (D + 0) = (D - 53)%Z).
  { unfold fexp, emin, prec, emax. lia. }
  rewrite Hf.
  assert (Hround : forall mz ez, Zpos (digits2_pos mz) = 53%Z ->
            (-52 <= ez <= 0)%Z ->
            binary_round_aux prec emax false (Zpos mz) ez loc_Exact
            = S754_finite false mz ez).
  { intros mz ez Hdz Hez. unfold binary_round_aux, shr_fexp.
    cbn [Zdigits2 shr_record_of_loc]. rewrite Hdz.
    assert (Hf' : (fexp prec emax (53 + ez) - ez = 0)%Z).
    { unfold fexp, emin, prec, emax. lia. }
    rewrite Hf'. cbn [shr shr_m loc_of_shr_record round_nearest_even Zdigits2
                      shr_record_of_loc].
    rewrite Hdz, Hf'. cbn [shr shr_m].
    replace (ez <=? emax - prec)%Z with true; [reflexivity|].
    symmetry. apply Z.leb_le. unfold emax, prec. lia. }
  destruct (D - 53 - 0)%Z as [|q|q] eqn:Eq.
  - exists p, 0%Z. apply Hround; lia.
  - lia.
  - exists (Pos.iter xO p q), (D - 53)%Z. apply Hround.
    + rewrite digits2_pos_iter_xO. fold D. lia.
    + assert (0 < D)%Z by (subst D; lia). lia.
Qed.

Lemma of_nat_0 : of_nat 0 = zero.
Proof. reflexivity. Qed.

(** *** The order of binary64 numbers *)

Lemma SFcompare_key x y :
  is_nan x = false -> is_nan y = false ->
  SFcompare x y = Some (lex_compare (key x) (key y)).
Proof.
  destruct x as [sx|sx| |sx mx ex], y as [sy|sy| |sy my ey];
    intros Hx Hy; try discriminate;
    try (destruct sx; reflexivity); try (destruct sy; reflexivity);
    try (destruct sx, sy; reflexivity).
  destruct sx, sy; try reflexivity; cbn [SFcompare key lex_compare].
  change (-1 ?= -1)%Z with Eq. cbv iota.
  rewrite Z.compare_opp, (Z.compare_antisym ex ey).
  destruct (ex ?= ey)%Z; reflexivity.
Qed.

Lemma lex_total a b : lex_compare a b = Gt -> lex_compare b a = Lt.
Proof. intros H. lex_order. Qed.

Lemma lex_lt_gt a b : lex_compare a b = Lt -> lex_compare b a = Gt.
Proof. intros H. lex_order. Qed.

Lemma lex_refl a : lex_compare a a = Eq.
Proof. lex_order. Qed.

Lemma lex_le_lt_trans a b c :
  lex_compare a b <> Gt -> lex_compare b c = Lt -> lex_compare a c = Lt.
Proof. intros H1 H2. lex_order; try (exfalso; apply H1; reflexivity). Qed.

Section Order.

Variables x y z : float64.
Hypothesis Hx : is_nan x = false.
Hypothesis Hy : is_nan y = false.
Hypothesis Hz : is_nan z = false.

Lemma leb_key : leb x y = true <-> lex_compare (key x) (key y) <> Gt.
Proof.
  unfold leb, SFleb. rewrite SFcompare_key by assumption.
  destruct (lex_compare (key x) (key y)); split; intros H;
    try reflexivity; try discriminate; try congruence.
Qed.

Lemma ltb_key : ltb x y = true <-> lex_compare (key x) (key y) = Lt.
Proof.
  unfold ltb, SFltb. rewrite SFcompare_key by assumption.
  destruct (lex_compare (key x) (key y)); split; intros H;
    try reflexivity; try discriminate.
Qed.

End Order.

Lemma leb_refl x : is_nan x = false -> leb x x = true.
Proof.
  intros Hx. apply leb_key; auto. rewrite lex_refl. discriminate.
Qed.

Lemma not_leb_ltb x y :
  is_nan x = false -> is_nan y = false -> leb x y = false -> ltb y x = true.
Proof.
  intros Hx Hy H. apply ltb_key; auto. apply lex_total.
  destruct (lex_compare (key x) (key y)) eqn:E; try reflexivity;
    exfalso; (assert (leb x y = true) by (apply leb_key; auto; rewrite E; discriminate));
    congruence.
Qed.

Lemma leb_ltb_trans x y z :
  is_nan x = false -> is_nan y = false -> is_nan z = false ->
  leb x y = true -> ltb y z = true -> ltb x z = true.
Proof.
  intros Hx Hy Hz H1 H2. apply ltb_key; auto.
  apply lex_le_lt_trans with (b := key y).
  - apply leb_key; auto.
  - apply ltb_key; auto.
Qed.

Lemma ltb_not_leb x y :
  is_nan x = false -> is_nan y = false -> ltb x y = true -> leb y x = false.
Proof.
  intros Hx Hy H. apply ltb_key in H; auto. apply lex_lt_gt in H.
  destruct (leb y x) eqn:E; [|reflexivity].
  apply leb_key in E; auto. congruence.
Qed.

Lemma ltb_leb x y :
  is_nan x = false -> is_nan y = false -> ltb x y = true -> leb x y = true.
Proof.
  intros Hx Hy H. apply leb_key; auto.
  apply ltb_key in H; auto. rewrite H. discriminate.
Qed.

(** ** Facts about lists and the result monad *)

Lemma mapM_pure {A B : Type} (f : A -> B) (xs : list A) :
  mapM (fun x => Ok (f x)) xs = Ok (map f xs).
Proof.
  induction xs as [|x xs IH]; simpl; [reflexivity|].
  rewrite IH. reflexivity.
Qed.

Lemma mapM_ext_in {A B : Type} (f g : A -> result B) (xs : list A) :
  (forall x, In x xs -> f x = g x) -> mapM f xs = mapM g xs.
Proof.
  induction xs as [|x xs IH]; simpl; intros H; [reflexivity|].
  rewrite (H x) by auto. rewrite IH by auto. reflexivity.
Qed.

Lemma mapM_Forall2 {A B : Type} (f : A -> result B) (xs : list A) :
  forall ys, mapM f xs = Ok ys -> Forall2 (fun x y => f x = Ok y) xs ys.
Proof.
  induction xs as [|x xs IH]; simpl; intros ys H.
  - injection H as <-. constructor.
  - destruct (f x) as [y|e] eqn:Ex; simpl in H; [|discriminate].
    destruct (mapM f xs) as [ys'|e]; simpl in H; [|discriminate].
    injection H as <-. constructor; auto.
Qed.

Lemma mapM_total {A B : Type} (f : A -> result B) (xs : list A) :
  Forall (fun x => exists y, f x = Ok y) xs -> exists ys, mapM f xs = Ok ys.
Proof.
  induction 1 as [|x xs [y Hy] _ [ys IH]]; simpl.
  - eexists; reflexivity.
  - rewrite Hy, IH. simpl. eexists; reflexivity.
Qed.

Lemma nth_error_combine {A B : Type} (xs : list A) : forall (ys : list B) n x y,
  nth_error xs n = Some x -> nth_error ys n = Some y ->
  nth_error (combine xs ys) n = Some (x, y).
Proof.
  induction xs as [|x0 xs IH]; intros [|y0 ys] [|n] x y Hx Hy; simpl in *;
    try discriminate.
  - congruence.
  - apply IH; assumption.
Qed.

Lemma Forall2_nth_error_l {A B : Type} (R : A -> B -> Prop) xs ys :
  Forall2 R xs ys -> forall n x,
  nth_error xs n = Some x -> exists y, nth_error ys n = Some y /\ R x y.
Proof.
  induction 1 as [|x0 y0 xs ys H0 _ IH]; intros [|n] x Hx;
    simpl in *; try discriminate.
  - injection Hx as <-. exists y0. auto.
  - apply IH, Hx.
Qed.

Lemma concat_singletons {A : Type} (xs : list A) :
  concat (map (fun x => [x]) xs) = xs.
Proof. induction xs as [|x xs IH]; simpl; congruence. Qed.

Lemma rect2_shape1 k d (rows : ndarray2) :
  rect2 k d rows -> 1 <= k -> shape1 rows = d.
Proof.
  intros [Hk H] Hpos. destruct rows as [|row rows]; simpl in *; [lia|].
  inversion H; assumption.
Qed.

Lemma rect3_row n k d (a : ndarray3) i rows :
  rect3 n k d a -> nth_error a i = Some rows -> rect2 k d rows.
Proof.
  intros [_ H] Hi. rewrite Forall_forall in H.
  apply H. eapply nth_error_In, Hi.
Qed.

(** ** The one-hot mask in closed form *)

Lemma setitem1_zeros k : forall l i,
  l < k ->
  setitem1 (repeat zero k) l one = Ok (map (hot (i + l)) (seq i k)).
Proof.
  induction k as [|k IH]; intros l i Hl; [lia|].
  destruct l as [|l]; simpl.
  - unfold hot at 1. rewrite Nat.add_0_r, Nat.eqb_refl. f_equal. f_equal.
    clear. generalize (S i) (Nat.lt_succ_diag_r i).
    induction k as [|k IH]; intros j Hj; simpl; [reflexivity|].
    unfold hot at 1. replace (j =? i) with false
      by (symmetry; apply Nat.eqb_neq; lia).
    f_equal. apply IH. lia.
  - rewrite (IH l (S i)) by lia. simpl.
    unfold hot at 2. replace (i =? i + S l) with false
      by (symmetry; apply Nat.eqb_neq; lia).
    replace (S (i + l)) with (i + S l) by lia. reflexivity.
Qed.

Lemma setitem1_out_of_range {A : Type} (xs : list A) : forall j v,
  length xs <= j -> setitem1 xs j v = Raise IndexError.
Proof.
  induction xs as [|x xs IH]; intros j v H; simpl in *; [reflexivity|].
  destruct j as [|j]; [lia|]. rewrite IH by lia. reflexivity.
Qed.

Lemma setitem2_app {A : Type} (done : list (list A)) : forall row rest j v,
  setitem2 (done ++ row :: rest) (length done) j v
  = row' <- setitem1 row j v ;; Ok (done ++ row' :: rest).
Proof.
  induction done as [|r done IH]; intros row rest j v; simpl.
  - reflexivity.
  - rewrite IH. destruct (setitem1 row j v); reflexivity.
Qed.

Lemma fill_one_hot_zeros k labels : forall done,
  Forall (fun l => l < k) labels ->
  fill_one_hot (done ++ repeat (repeat zero k) (length labels))
    (length done) labels
  = Ok (done ++ map (one_hot_row k) labels).
Proof.
  induction labels as [|l labels IH]; intros done H; simpl.
  - reflexivity.
  - inversion H as [|? ? Hl Hrest]; subst.
    rewrite setitem2_app, (setitem1_zeros k l 0 Hl). simpl.
    replace (done ++ map (hot l) (seq 0 k) :: repeat (repeat zero k) (length labels))
      with ((done ++ [one_hot_row k l]) ++ repeat (repeat zero k) (length labels))
      by (rewrite <- app_assoc; reflexivity).
    replace (S (length done)) with (length (done ++ [one_hot_row k l]))
      by (rewrite length_app; simpl; lia).
    rewrite IH by assumption. rewrite <- app_assoc. reflexivity.
Qed.

Lemma fill_one_hot_out_of_range k labels : forall done,
  Exists (fun l => k <= l) labels ->
  fill_one_hot (done ++ repeat (repeat zero k) (length labels))
    (length done) labels
  = Raise IndexError.
Proof.
  induction labels as [|l labels IH]; intros done H; simpl.
  - inversion H.
  - rewrite setitem2_app.
    destruct (Nat.lt_ge_cases l k) as [Hl|Hl].
    + rewrite (setitem1_zeros k l 0 Hl). simpl.
      inversion H as [? ? Hbad|? ? Hbad]; subst; [lia|].
      replace (done ++ map (hot l) (seq 0 k) :: repeat (repeat zero k) (length labels))
        with ((done ++ [one_hot_row k l]) ++ repeat (repeat zero k) (length labels))
        by (rewrite <- app_assoc; reflexivity).
      replace (S (length done)) with (length (done ++ [one_hot_row k l]))
        by (rewrite length_app; simpl; lia).
      apply IH, Hbad.
    + rewrite setitem1_out_of_range by (rewrite repeat_length; exact Hl).
      reflexivity.
Qed.

Lemma one_hot_mask_ok labels k :
  Forall (fun l => l < k) labels ->
  one_hot_mask labels k = Ok (one_hot k labels).
Proof.
  intros H. unfold one_hot_mask, np_zeros2, shape0.
  pose proof (fill_one_hot_zeros k labels [] H) as E. simpl in E.
  rewrite E. simpl.
  unfold np_expand_dims2, one_hot. rewrite map_map. reflexivity.
Qed.

Lemma one_hot_mask_out_of_range labels k :
  Exists (fun l => k <= l) labels ->
  one_hot_mask labels k = Raise IndexError.
Proof.
  intros H. unfold one_hot_mask, np_zeros2, shape0.
  pose proof (fill_one_hot_out_of_range k labels [] H) as E. simpl in E.
  rewrite E. reflexivity.
Qed.

Lemma hot_row_total l k : forall i,
  fold_right Z.add 0%Z (map Z_of_entry (map (hot l) (seq i k)))
  = if (i <=? l) && (l <? i + k) then 1%Z else 0%Z.
Proof.
  induction k as [|k IH]; intros i; cbn [seq map fold_right].
  - destruct (Nat.leb_spec i l), (Nat.ltb_spec l (i + 0)); simpl; lia.
  - rewrite IH. unfold hot.
    destruct (Nat.eqb_spec i l) as [->|Hne].
    + replace (S l <=? l) with false by (symmetry; apply Nat.leb_gt; lia).
      rewrite Nat.leb_refl. replace (l <? l + S k) with true
        by (symmetry; apply Nat.ltb_lt; lia).
      reflexivity.
    + change (Z_of_entry zero) with 0%Z.
      destruct (Nat.leb_spec (S i) l), (Nat.ltb_spec l (S i + k)),
        (Nat.leb_spec i l), (Nat.ltb_spec l (i + S k)); simpl; lia.
Qed.

Lemma one_hot_row_total k l :
  l < k -> fold_right Z.add 0%Z (map Z_of_entry (one_hot_row k l)) = 1%Z.
Proof.
  intros Hl. unfold one_hot_row. rewrite hot_row_total.
  replace ((0 <=? l) && (l <? 0 + k)) with true; [reflexivity|].
  symmetry. apply andb_true_intro. split.
  - apply Nat.leb_le. lia.
  - apply Nat.ltb_lt. lia.
Qed.

Lemma one_hot_total k labels :
  Forall (fun l => l < k) labels ->
  mask_total (one_hot k labels) = Z.of_nat (length labels).
Proof.
  unfold mask_total, one_hot.
  induction 1 as [|l labels Hl _ IH]; [reflexivity|].
  cbn [map concat length]. rewrite concat_app, map_app, fold_right_app.
  rewrite concat_singletons.
  assert (E : forall (xs : list Z) (z : Z),
            fold_right Z.add z xs = (fold_right Z.add 0 xs + z)%Z).
  { induction xs as [|x xs IHx]; intros z; simpl; [lia|].
    rewrite IHx. lia. }
  rewrite E, one_hot_row_total, IH by assumption. lia.
Qed.

(** ** The masked squared differences in closed form *)

Lemma broadcast_singleton {A B C : Type} (f : A -> B -> result C) h ys :
  broadcast f [h] ys = mapM (f h) ys.
Proof.
  unfold broadcast. destruct (length [h] =? length ys) eqn:E; [|reflexivity].
  apply Nat.eqb_eq in E. destruct ys as [|y [|y' ys]]; try discriminate.
  reflexivity.
Qed.

Lemma multiply_cell h cell :
  broadcast (fun x y => Ok (mul x y)) [h] (map square cell)
  = Ok (masked_cell h cell).
Proof.
  rewrite broadcast_singleton, mapM_pure. unfold masked_cell.
  rewrite map_map. reflexivity.
Qed.

Lemma multiply_rows hs : forall rows,
  length hs = length rows ->
  broadcast (broadcast (fun x y => Ok (mul x y)))
    (map (fun h => [h]) hs) (map (map square) rows)
  = Ok (map (fun hc => masked_cell (fst hc) (snd hc)) (combine hs rows)).
Proof.
  intros rows Hlen. unfold broadcast at 1.
  rewrite !length_map, Hlen, Nat.eqb_refl. revert rows Hlen.
  induction hs as [|h hs IH]; intros [|row rows] Hlen; simpl in *;
    try discriminate; [reflexivity|].
  rewrite multiply_cell. simpl. rewrite IH by lia. reflexivity.
Qed.

Lemma multiply_one_hot k labels : forall delta_arr,
  length labels = length delta_arr ->
  Forall (fun rows => length rows = k) delta_arr ->
  np_multiply3 (one_hot k labels) (np_square delta_arr)
  = Ok (masked labels delta_arr).
Proof.
  intros delta_arr Hlen Hk. unfold np_multiply3, broadcast at 1.
  unfold one_hot, np_square. rewrite !length_map, Hlen, Nat.eqb_refl.
  unfold masked. revert delta_arr Hlen Hk.
  induction labels as [|l labels IH]; intros [|rows delta_arr] Hlen Hk;
    simpl in *; try discriminate; [reflexivity|].
  inversion Hk as [|? ? Hrows Hrest]; subst.
  rewrite multiply_rows
    by (unfold one_hot_row; rewrite length_map, length_seq; reflexivity).
  simpl. rewrite IH by (auto; lia). reflexivity.
Qed.

(** Sample axes of different extents, neither of them 1, do not broadcast. *)
Lemma multiply_sample_axis_mismatch k labels delta_arr :
  length labels <> length delta_arr ->
  length labels <> 1 -> length delta_arr <> 1 ->
  np_multiply3 (one_hot k labels) (np_square delta_arr) = Raise ValueError.
Proof.
  intros Hne Hl Hd. unfold np_multiply3, broadcast at 1.
  unfold one_hot, np_square. rewrite !length_map.
  replace (length labels =? length delta_arr) with false
    by (symmetry; apply Nat.eqb_neq; exact Hne).
  destruct labels as [|l1 [|l2 labels]], delta_arr as [|r1 [|r2 delta_arr]];
    simpl in *; try reflexivity; congruence.
Qed.

Lemma delta_kmeans_ok n k d labels delta_arr :
  rect3 n k d delta_arr -> length labels = n ->
  Forall (fun l => l < k) labels ->
  delta_kmeans labels delta_arr = Ok (masked labels delta_arr).
Proof.
  intros [Hn Hrect] Hlen Hlt. unfold delta_kmeans.
  assert (Hk : Forall (fun rows => length rows = k) delta_arr).
  { eapply Forall_impl; [|exact Hrect]. intros rows [H _]. exact H. }
  destruct delta_arr as [|rows delta_arr].
  - simpl in Hn. subst n. destruct labels; [reflexivity|discriminate].
  - assert (Hs : shape1 (rows :: delta_arr) = k)
      by (inversion Hk; assumption).
    rewrite Hs, one_hot_mask_ok by assumption. cbn [bind].
    apply multiply_one_hot; [lia|assumption].
Qed.

(** ** The NaN-tolerant mean of a masked column *)

Lemma column_masked hs d : forall rows,
  column nan (map (fun hc => masked_cell (fst hc) (snd hc)) (combine hs rows)) d
  = map (fun hx => mul (fst hx) (square (snd hx)))
        (combine hs (column nan rows d)).
Proof.
  induction hs as [|h hs IH]; intros [|row rows]; simpl; try reflexivity.
  f_equal; [|apply IH].
  unfold masked_cell.
  pose proof (map_nth (fun x => mul h (square x)) row nan d) as Hm.
  cbv beta in Hm. change (square nan) with nan in Hm.
  rewrite mul_nan_r in Hm. exact Hm.
Qed.

Lemma column_masked_rows l rows d :
  column nan (masked_rows l rows) d = mcol l (column nan rows d).
Proof.
  unfold masked_rows, mcol. rewrite column_masked.
  unfold column at 2. rewrite length_map. reflexivity.
Qed.

Lemma shape1_masked_rows l rows : shape1 (masked_rows l rows) = shape1 rows.
Proof.
  destruct rows as [|row rows]; [reflexivity|].
  unfold shape1, masked_rows, masked_cell. simpl. apply length_map.
Qed.

(** A masked-out entry: [0.0 * x^2]. *)
Lemma masked_out_nan_to_zero y : nan_to_zero (mul zero (square y)) = zero.
Proof.
  destruct (is_nan y) eqn:Ey.
  - rewrite square_nan by assumption. reflexivity.
  - pose proof (square_sign y Ey) as Hs.
    destruct (is_finite (square y)) eqn:Ef.
    + rewrite mul_zero_finite by assumption. reflexivity.
    + rewrite mul_zero_not_finite by assumption. reflexivity.
Qed.

Lemma masked_out_is_nan y :
  is_nan (mul zero (square y)) = negb (is_finite (square y)).
Proof.
  destruct (is_nan y) eqn:Ey.
  - rewrite square_nan by assumption. reflexivity.
  - pose proof (square_sign y Ey) as Hs.
    destruct (is_finite (square y)) eqn:Ef.
    + rewrite mul_zero_finite by assumption. reflexivity.
    + rewrite mul_zero_not_finite by assumption. reflexivity.
Qed.

(** The selected entry: [1.0 * x^2]. *)
Lemma selected_is_nan y : is_nan (mul one (square y)) = is_nan y.
Proof.
  destruct (is_nan y) eqn:Ey.
  - rewrite square_nan by assumption. reflexivity.
  - apply sign_is_not_nan with (s := false), mul_one_sign, square_sign, Ey.
Qed.

Lemma selected_sign y : sign_is false (nan_to_zero (mul one (square y))).
Proof.
  unfold nan_to_zero. rewrite selected_is_nan.
  destruct (is_nan y) eqn:Ey; [reflexivity|].
  apply mul_one_sign, square_sign, Ey.
Qed.

(** The sum of a masked column is its selected entry. *)
Lemma sum_masked_out l col : forall i acc,
  l < i -> sign_is false acc ->
  fold_left add
    (map nan_to_zero
       (map (fun hx => mul (fst hx) (square (snd hx)))
          (combine (map (hot l) (seq i (length col))) col))) acc
  = acc.
Proof.
  induction col as [|y col IH]; intros i acc Hi Hacc;
    cbn [length seq map combine fold_left fst snd]; [reflexivity|].
  replace (hot l i) with zero
    by (unfold hot; replace (i =? l) with false; [reflexivity|];
        symmetry; apply Nat.eqb_neq; lia).
  rewrite masked_out_nan_to_zero, add_zero_r by assumption.
  apply IH; [lia|assumption].
Qed.

Lemma sum_masked l col : forall i x,
  i <= l -> nth_error col (l - i) = Some x ->
  fold_left add
    (map nan_to_zero
       (map (fun hx => mul (fst hx) (square (snd hx)))
          (combine (map (hot l) (seq i (length col))) col))) zero
  = nan_to_zero (mul one (square x)).
Proof.
  induction col as [|y col IH]; intros i x Hi Hx;
    cbn [length seq map combine fold_left fst snd].
  - destruct (l - i); discriminate.
  - destruct (i =? l) eqn:E.
    + apply Nat.eqb_eq in E. subst i. rewrite Nat.sub_diag in Hx.
      injection Hx as ->.
      replace (hot l l) with one by (unfold hot; rewrite Nat.eqb_refl; reflexivity).
      rewrite add_zero_l by apply selected_sign.
      apply sum_masked_out; [lia|apply selected_sign].
    + replace (hot l i) with zero by (unfold hot; rewrite E; reflexivity).
      apply Nat.eqb_neq in E.
      rewrite masked_out_nan_to_zero. change (add zero zero) with zero.
      apply IH; [lia|].
      replace (l - i) with (S (l - S i)) in Hx by lia. exact Hx.
Qed.

Lemma np_sum_mcol l col x :
  nth_error col l = Some x ->
  np_sum (map nan_to_zero (mcol l col)) = nan_to_zero (mul one (square x)).
Proof.
  intros Hx. unfold np_sum, mcol, one_hot_row.
  apply sum_masked; [lia|]. rewrite Nat.sub_0_r. exact Hx.
Qed.

Lemma masked_entry_is_nan l k y :
  k = l \/ tame y -> is_nan (mul (hot l k) (square y)) = is_nan y.
Proof.
  intros Hy. unfold hot. destruct (Nat.eqb_spec k l) as [_|Hne].
  - apply selected_is_nan.
  - destruct Hy as [Hy|Hy]; [contradiction|].
    rewrite masked_out_is_nan. destruct Hy as [Hy|Hy].
    + rewrite square_nan by assumption. simpl. symmetry. exact Hy.
    + rewrite Hy. simpl. destruct y; try reflexivity; discriminate Hy.
Qed.

Lemma count_not_nan_masked l col : forall ks,
  Forall2 (fun k y => k = l \/ tame y) ks col ->
  count_not_nan
    (map (fun hx => mul (fst hx) (square (snd hx)))
       (combine (map (hot l) ks) col))
  = count_not_nan col.
Proof.
  unfold count_not_nan.
  induction col as [|y col IH]; intros ks H; inversion H as [|k ? ks' ? Hy Hrest];
    subst; cbn [length map combine filter fst snd]; [reflexivity|].
  rewrite masked_entry_is_nan by assumption.
  destruct (is_nan y); cbn [negb length]; rewrite IH by assumption;
    reflexivity.
Qed.

Lemma tame_others_seq l col : forall i,
  (forall k y, i + k <> l -> nth_error col k = Some y -> tame y) ->
  Forall2 (fun k y => k = l \/ tame y) (seq i (length col)) col.
Proof.
  induction col as [|y col IH]; intros i H; cbn [length seq]; constructor.
  - destruct (Nat.eq_dec i l) as [->|Hne]; [left; reflexivity|right].
    apply (H 0 y); [lia|reflexivity].
  - apply IH. intros k y' Hk Hy'. apply (H (S k) y'); [lia|exact Hy'].
Qed.

Lemma count_not_nan_mcol l col :
  tame_others l col -> count_not_nan (mcol l col) = count_not_nan col.
Proof.
  intros H. unfold mcol, one_hot_row.
  apply count_not_nan_masked, tame_others_seq. exact H.
Qed.

Lemma count_not_nan_count_nan xs :
  count_not_nan xs = length xs - count_nan xs.
Proof.
  unfold count_not_nan, count_nan.
  induction xs as [|x xs IH]; cbn [filter length]; [reflexivity|].
  assert (length (filter is_nan xs) <= length xs) by apply filter_length_le.
  destruct (is_nan x); cbn [negb length]; lia.
Qed.

Lemma length_mcol l col : length (mcol l col) = length col.
Proof.
  unfold mcol, one_hot_row.
  rewrite length_map, length_combine, length_map, length_seq.
  apply Nat.min_id.
Qed.

Lemma count_nan_le xs : count_nan xs <= length xs.
Proof. apply filter_length_le. Qed.

Lemma nth_error_mcol l col k y :
  nth_error col k = Some y ->
  nth_error (mcol l col) k = Some (mul (hot l k) (square y)).
Proof.
  intros Hy. unfold mcol, one_hot_row.
  assert (Hk : k < length col)
    by (apply nth_error_Some; rewrite Hy; discriminate).
  apply (map_nth_error (fun hx => mul (fst hx) (square (snd hx))) k
           (combine (map (hot l) (seq 0 (length col))) col)
           (d := (hot l k, y))).
  apply nth_error_combine; [|exact Hy].
  apply map_nth_error. rewrite nth_error_seq.
  destruct (Nat.ltb_spec k (length col)); [reflexivity|lia].
Qed.

(** The mean of a masked column: the selected square, or zero when it is
    NaN, over the number of masked entries that are not NaN. *)
Lemma nanmean1_mcol l col x :
  nth_error col l = Some x ->
  nanmean1 (mcol l col)
  = div (nan_to_zero (mul one (square x)))
        (of_nat (length col - count_nan (mcol l col))).
Proof.
  intros Hx. unfold nanmean1.
  rewrite (np_sum_mcol l col x Hx), count_not_nan_count_nan, length_mcol.
  reflexivity.
Qed.

(** When the masked-out entries are tame, the masked column has as many
    NaN entries as the slice of [delta_arr] it comes from. *)
Lemma count_nan_mcol l col :
  tame_others l col -> count_nan (mcol l col) = count_nan col.
Proof.
  intros H. pose proof (count_not_nan_mcol l col H) as E.
  rewrite !count_not_nan_count_nan, length_mcol in E.
  pose proof (count_nan_le (mcol l col)) as H1. rewrite length_mcol in H1.
  pose proof (count_nan_le col) as H2. lia.
Qed.

Lemma np_sum_all_nan xs :
  Forall (fun x => is_nan x = true) xs ->
  np_sum (map nan_to_zero xs) = zero /\ count_not_nan xs = 0.
Proof.
  unfold np_sum, count_not_nan.
  induction 1 as [|x xs Hx _ [IH1 IH2]]; [split; reflexivity|].
  cbn [map fold_left filter].
  replace (nan_to_zero x) with zero
    by (unfold nan_to_zero; rewrite Hx; reflexivity).
  rewrite Hx. cbn [negb]. change (add zero zero) with zero.
  split; assumption.
Qed.

Lemma np_sum_not_nan xs :
  Forall (fun x => is_finite x = true) xs -> is_nan (np_sum xs) = false.
Proof.
  unfold np_sum. generalize zero, (eq_refl : is_nan zero = false).
  induction xs as [|x xs IH]; intros acc Hacc H; simpl; [exact Hacc|].
  inversion H; subst. apply IH; [|assumption].
  apply add_not_nan; assumption.
Qed.

Lemma nanmean1_finite cell :
  cell <> [] -> (Z.of_nat (length cell) < 2 ^ 53)%Z ->
  Forall (fun x => is_finite x = true) cell ->
  is_nan (nanmean1 cell) = false.
Proof.
  intros Hne Hlen H. unfold nanmean1.
  assert (Hid : map nan_to_zero cell = cell).
  { rewrite <- (map_id cell) at 2. apply map_ext_in. intros x Hx.
    rewrite Forall_forall in H. specialize (H x Hx).
    destruct x; try discriminate; reflexivity. }
  assert (Hcnt : count_not_nan cell = length cell).
  { unfold count_not_nan. clear Hne Hlen Hid.
    induction H as [|x xs Hx _ IH]; [reflexivity|]. simpl.
    destruct x; try discriminate; simpl; rewrite IH; reflexivity. }
  rewrite Hid, Hcnt.
  destruct (of_nat_finite (length cell)) as [m [e ->]]; [|assumption|].
  { destruct cell; [congruence|simpl; lia]. }
  pose proof (np_sum_not_nan cell H) as Hs.
  destruct (np_sum cell) as [s|s| |s ms es] eqn:E; try discriminate.
  - reflexivity.
  - reflexivity.
  - eapply sign_is_not_nan. apply (div_sign s (S754_finite s ms es)).
    reflexivity.
Qed.

(** ** Label assignment: shapes and totality *)

Lemma argmax_scan_bound xs : forall mp max_ind i,
  max_ind < i -> argmax_scan mp max_ind i xs < i + length xs.
Proof.
  induction xs as [|x xs IH]; intros mp max_ind i H; simpl; [lia|].
  destruct (is_nan mp); [lia|].
  destruct (negb (leb x mp)).
  - specialize (IH x i (S i) ltac:(lia)). lia.
  - specialize (IH mp max_ind (S i) ltac:(lia)). lia.
Qed.

Lemma argmax1_bound row a : argmax1 row = Ok a -> a < length row.
Proof.
  destruct row as [|x xs]; simpl; intros H; [discriminate|].
  injection H as <-.
  pose proof (argmax_scan_bound xs x 0 1 ltac:(lia)). lia.
Qed.

Lemma collapse_trailing_lengths q_arr q2 :
  collapse_trailing q_arr = Ok q2 ->
  Forall2 (fun rows row => length row = length rows) q_arr q2.
Proof.
  unfold collapse_trailing. destruct (1 <? shape2 q_arr).
  - intros H. injection H as <-. unfold np_nanmean_axis2.
    induction q_arr as [|rows q_arr IH]; simpl; constructor; auto.
    apply length_map.
  - intros H. apply mapM_Forall2 in H.
    induction H as [|rows row q_arr q2 Hrow _ IH]; constructor; auto.
    apply mapM_Forall2 in Hrow. symmetry. eapply Forall2_length, Hrow.
Qed.

Lemma assign_label_shape n k m q_arr labels :
  rect3 n k m q_arr -> __assign_label q_arr = Ok labels ->
  length labels = n /\ Forall (fun l => l < k) labels.
Proof.
  intros [Hn Hrect] H. unfold __assign_label in H.
  destruct (collapse_trailing q_arr) as [q2|e] eqn:Ec; [|discriminate].
  simpl in H. apply collapse_trailing_lengths in Ec.
  apply mapM_Forall2 in H. subst n.
  revert labels H Hrect.
  induction Ec as [|rows row q_arr q2 Hlen _ IH]; intros labels H Hrect.
  - inversion H; subst. split; [reflexivity|constructor].
  - inversion H as [|? a ? labels' Ha Hrest]; subst.
    inversion Hrect as [|? ? [Hk _] Hrect']; subst.
    destruct (IH labels' Hrest Hrect') as [IH1 IH2].
    split; [simpl; congruence|].
    constructor; [|assumption].
    apply argmax1_bound in Ha. lia.
Qed.

Lemma collapse_trailing_ok n k m q_arr :
  rect3 n k m q_arr -> 1 <= m ->
  collapse_trailing q_arr = Ok (map (map reduce_cell) q_arr).
Proof.
  intros [_ Hrect] Hm. unfold collapse_trailing.
  assert (Hcells : Forall (Forall (fun cell => length cell = m)) q_arr).
  { eapply Forall_impl; [|exact Hrect]. intros rows [_ H]. exact H. }
  assert (Hshape : shape2 q_arr = m \/ Forall (fun rows => rows = []) q_arr).
  { destruct q_arr as [|[|cell rows] q_arr].
    - right. constructor.
    - right. eapply Forall_impl; [|exact Hrect].
      intros rows [Hk _]. inversion Hrect as [|? ? [Hk0 _] _]; subst.
      destruct rows; [reflexivity|discriminate].
    - left. inversion Hcells as [|? ? Hc _]; subst.
      inversion Hc; subst. reflexivity. }
  destruct (1 <? shape2 q_arr) eqn:E.
  - apply Nat.ltb_lt in E. f_equal. unfold np_nanmean_axis2.
    apply map_ext_in. intros rows Hin. apply map_ext_in. intros cell Hc.
    rewrite Forall_forall in Hcells. specialize (Hcells rows Hin).
    rewrite Forall_forall in Hcells. specialize (Hcells cell Hc).
    destruct Hshape as [Hs|Hs].
    + destruct cell as [|x [|y cell]]; simpl in *; try reflexivity; lia.
    + rewrite Forall_forall in Hs. rewrite (Hs rows Hin) in Hc. destruct Hc.
  - apply Nat.ltb_ge in E. unfold reshape_3_to_2.
    rewrite <- mapM_pure. apply mapM_ext_in. intros rows Hin.
    rewrite <- mapM_pure. apply mapM_ext_in. intros cell Hc.
    rewrite Forall_forall in Hcells. specialize (Hcells rows Hin).
    rewrite Forall_forall in Hcells. specialize (Hcells cell Hc).
    destruct Hshape as [Hs|Hs].
    + destruct cell as [|x [|y cell]]; simpl in *; try reflexivity; lia.
    + rewrite Forall_forall in Hs. rewrite (Hs rows Hin) in Hc. destruct Hc.
Qed.

Lemma argmax_axis1_total k (a : ndarray2) :
  1 <= k -> Forall (fun row => length row = k) a ->
  exists labels, argmax_axis1 a = Ok labels.
Proof.
  intros Hk H. apply mapM_total.
  eapply Forall_impl; [|exact H]. intros row Hrow.
  destruct row; simpl in *; [lia|]. eexists; reflexivity.
Qed.

Lemma argmax_axis1_rect n k (q2 : ndarray2) :
  rect2 n k q2 -> 1 <= k -> exists labels, argmax_axis1 q2 = Ok labels.
Proof.
  intros [_ Hrows] Hk. apply (argmax_axis1_total k); assumption.
Qed.

Lemma argmax_axis1_length (q2 : ndarray2) labels :
  argmax_axis1 q2 = Ok labels -> length labels = length q2.
Proof.
  intros H. apply mapM_Forall2 in H. symmetry.
  eapply Forall2_length, H.
Qed.

(** Label assignment is [argmax] on the collapsed target distribution. *)
Lemma assign_label_collapsed n k m (q_arr : ndarray3) (q2 : ndarray2) labels :
  rect3 n k m q_arr -> 1 <= m -> collapsed q_arr = q2 ->
  argmax_axis1 q2 = Ok labels ->
  collapse_trailing q_arr = Ok q2 /\ __assign_label q_arr = Ok labels.
Proof.
  intros Hrect Hm <- Ha.
  pose proof (collapse_trailing_ok n k m q_arr Hrect Hm) as Hc.
  fold (collapsed q_arr) in Hc. split; [exact Hc|].
  unfold __assign_label. rewrite Hc. exact Ha.
Qed.

Lemma assign_label_total n k m q_arr :
  rect3 n k m q_arr -> 1 <= k -> 1 <= m ->
  exists labels, __assign_label q_arr = Ok labels.
Proof.
  intros Hrect Hk Hm. unfold __assign_label.
  rewrite (collapse_trailing_ok n k m q_arr Hrect Hm). simpl.
  apply (argmax_axis1_total k); [assumption|].
  destruct Hrect as [_ Hrect]. apply Forall_map.
  eapply Forall_impl; [|exact Hrect]. intros rows [H _].
  rewrite length_map. exact H.
Qed.

Lemma collapsed_reshape n k q_arr :
  rect3 n k 1 q_arr -> collapsed q_arr = map (map (hd nan)) q_arr.
Proof.
  intros [_ H]. unfold collapsed. apply map_ext_in. intros rows Hin.
  apply map_ext_in. intros cell Hc.
  rewrite Forall_forall in H. destruct (H rows Hin) as [_ Hcells].
  rewrite Forall_forall in Hcells. specialize (Hcells cell Hc).
  destruct cell as [|x [|y cell]]; try discriminate. reflexivity.
Qed.

Lemma collapsed_nanmean n k m q_arr :
  rect3 n k m q_arr -> 1 < m -> collapsed q_arr = np_nanmean_axis2 q_arr.
Proof.
  intros [_ H] Hm. unfold collapsed, np_nanmean_axis2.
  apply map_ext_in. intros rows Hin. apply map_ext_in. intros cell Hc.
  rewrite Forall_forall in H. destruct (H rows Hin) as [_ Hcells].
  rewrite Forall_forall in Hcells. specialize (Hcells cell Hc).
  destruct cell as [|x [|y cell]]; simpl in *; try reflexivity; lia.
Qed.

(** With one estimate per cell, the collapsed matrix is free of NaN as
    soon as [q_arr] is. *)
Lemma collapsed_nan_free n k q_arr :
  rect3 n k 1 q_arr ->
  Forall (Forall (Forall (fun x => is_nan x = false))) q_arr ->
  Forall nan_free (collapsed q_arr).
Proof.
  intros [_ Hrect] H. unfold collapsed, nan_free.
  rewrite Forall_forall in *. intros row Hrow.
  apply in_map_iff in Hrow. destruct Hrow as [rows [<- Hin]].
  specialize (H rows Hin). destruct (Hrect rows Hin) as [_ Hcells].
  rewrite Forall_forall in *. intros x Hx.
  apply in_map_iff in Hx. destruct Hx as [cell [<- Hc]].
  specialize (H cell Hc). specialize (Hcells cell Hc).
  destruct cell as [|y [|z cell]]; try discriminate.
  inversion H; assumption.
Qed.

(** When every entry of [q_arr] is finite, the collapsed matrix holds no
    NaN. *)
Lemma collapsed_finite n k m q_arr :
  rect3 n k m q_arr -> 1 <= m -> (Z.of_nat m < 2 ^ 53)%Z ->
  Forall (Forall (Forall (fun x => is_finite x = true))) q_arr ->
  Forall nan_free (collapsed q_arr).
Proof.
  intros [_ Hrect] Hm Hbig H. unfold collapsed, nan_free.
  rewrite Forall_forall in *. intros row Hrow.
  apply in_map_iff in Hrow. destruct Hrow as [rows [<- Hin]].
  specialize (H rows Hin). destruct (Hrect rows Hin) as [_ Hcells].
  rewrite Forall_forall in *. intros x Hx.
  apply in_map_iff in Hx. destruct Hx as [cell [<- Hc]].
  specialize (H cell Hc). specialize (Hcells cell Hc).
  destruct cell as [|y [|z cell]].
  - simpl in Hcells. lia.
  - inversion H; subst. destruct y; try discriminate; reflexivity.
  - apply nanmean1_finite; [discriminate|congruence|exact H].
Qed.

(** ** What the max-index scan returns *)

Lemma nan_free_nth row j : nan_free row -> j < length row ->
  is_nan (nth j row nan) = false.
Proof.
  intros H Hj. unfold nan_free in H. rewrite Forall_forall in H.
  apply H, nth_In, Hj.
Qed.

Lemma argmax_scan_first_max xs : forall pre mp max_ind,
  nan_free (pre ++ xs) ->
  max_ind < length pre -> nth max_ind pre nan = mp ->
  (forall j, j < length pre -> leb (nth j pre nan) mp = true) ->
  (forall j, j < max_ind -> ltb (nth j pre nan) mp = true) ->
  is_first_max (pre ++ xs) (argmax_scan mp max_ind (length pre) xs).
Proof.
  induction xs as [|x xs IH]; intros pre mp max_ind Hfree Hmi Hmp Hle Hlt.
  - simpl. rewrite app_nil_r. subst mp. repeat split; auto.
  - assert (Hpre : forall j, j < length pre -> is_nan (nth j pre nan) = false).
    { intros j Hj. rewrite <- (app_nth1 pre (x :: xs) nan Hj).
      apply nan_free_nth; [assumption|]. rewrite length_app. lia. }
    assert (Hnmp : is_nan mp = false) by (subst mp; auto).
    assert (Hnx : is_nan x = false).
    { pose proof (nan_free_nth (pre ++ x :: xs) (length pre) Hfree) as H.
      rewrite app_nth2, Nat.sub_diag in H by lia. apply H.
      rewrite length_app. simpl. lia. }
    assert (Hlen : length (pre ++ [x]) = S (length pre))
      by (rewrite length_app; simpl; lia).
    assert (Hold : forall j, j < length pre ->
                     nth j (pre ++ [x]) nan = nth j pre nan)
      by (intros j Hj; apply app_nth1; exact Hj).
    assert (Hnew : nth (length pre) (pre ++ [x]) nan = x)
      by (rewrite app_nth2, Nat.sub_diag by lia; reflexivity).
    replace (pre ++ x :: xs) with ((pre ++ [x]) ++ xs) in *
      by (rewrite <- app_assoc; reflexivity).
    cbn [argmax_scan]. rewrite Hnmp.
    destruct (leb x mp) eqn:E; cbn [negb].
    + specialize (IH (pre ++ [x]) mp max_ind). rewrite Hlen in IH.
      apply IH; auto.
      * rewrite Hold by lia. exact Hmp.
      * intros j Hj. destruct (Nat.eq_dec j (length pre)) as [->|Hne].
        -- rewrite Hnew. exact E.
        -- rewrite Hold by lia. apply Hle. lia.
      * intros j Hj. rewrite Hold by lia. apply Hlt, Hj.
    + assert (Hgt : ltb mp x = true) by (apply not_leb_ltb; assumption).
      specialize (IH (pre ++ [x]) x (length pre)). rewrite Hlen in IH.
      apply IH; auto.
      * intros j Hj. destruct (Nat.eq_dec j (length pre)) as [->|Hne].
        -- rewrite Hnew. apply leb_refl, Hnx.
        -- rewrite Hold by lia. apply ltb_leb; auto; [apply Hpre; lia|].
           apply leb_ltb_trans with (y := mp); auto; [apply Hpre|apply Hle]; lia.
      * intros j Hj. rewrite Hold by lia.
        apply leb_ltb_trans with (y := mp); auto.
Qed.

(** On a row without NaN, [argmax] is the first index of the maximum. *)
Lemma argmax1_first_max row a :
  nan_free row -> argmax1 row = Ok a -> is_first_max row a.
Proof.
  destruct row as [|x xs]; simpl; intros Hfree H; [discriminate|].
  injection H as <-.
  apply (argmax_scan_first_max xs [x] x 0); simpl; auto.
  - intros [|j] Hj; [|lia]. apply leb_refl.
    inversion Hfree; assumption.
  - intros j Hj. lia.
Qed.

Lemma argmax_scan_nan xs mp max_ind i :
  is_nan mp = true -> argmax_scan mp max_ind i xs = max_ind.
Proof. intros H. destruct xs; simpl; [|rewrite H]; reflexivity. Qed.

Lemma argmax_scan_first_nan xs : forall mp max_ind i,
  is_nan mp = false -> Exists (fun x => is_nan x = true) xs ->
  exists a, argmax_scan mp max_ind i xs = i + a /\ is_first_nan xs a.
Proof.
  induction xs as [|x xs IH]; intros mp max_ind i Hmp Hex.
  - inversion Hex.
  - cbn [argmax_scan]. rewrite Hmp. destruct (is_nan x) eqn:Ex.
    + exists 0. replace (leb x mp) with false
        by (destruct x; try discriminate; reflexivity).
      cbn [negb]. rewrite argmax_scan_nan by assumption.
      split; [lia|]. repeat split; simpl; auto; try lia.
    + assert (Hex' : Exists (fun x => is_nan x = true) xs)
        by (inversion Hex; subst; [congruence|assumption]).
      assert (Hstep : forall mp' mi', is_nan mp' = false ->
                exists a, argmax_scan mp' mi' (S i) (xs) = i + a /\
                          is_first_nan (x :: xs) a).
      { intros mp' mi' Hmp'.
        destruct (IH mp' mi' (S i) Hmp' Hex') as [a [Ha [H1 [H2 H3]]]].
        exists (S a). split; [lia|]. repeat split; simpl; auto; try lia.
        intros [|j] Hj; [exact Ex|]. apply H3. lia. }
      destruct (negb (leb x mp)); apply Hstep; assumption.
Qed.

(** On a row with a NaN, [argmax] is the index of the first NaN. *)
Lemma argmax1_first_nan row a :
  Exists (fun x => is_nan x = true) row -> argmax1 row = Ok a ->
  is_first_nan row a.
Proof.
  destruct row as [|x xs]; simpl; intros Hex H; [discriminate|].
  injection H as <-. destruct (is_nan x) eqn:Ex.
  - rewrite argmax_scan_nan by assumption.
    repeat split; simpl; auto; lia.
  - assert (Hex' : Exists (fun x => is_nan x = true) xs)
      by (inversion Hex; subst; [congruence|assumption]).
    destruct (argmax_scan_first_nan xs x 0 1 Ex Hex') as [a [Ha [H1 [H2 H3]]]].
    rewrite Ha. repeat split; simpl; auto; try lia.
    intros [|j] Hj; [exact Ex|]. apply H3. lia.
Qed.

Lemma first_max_np row a :
  nan_free row -> is_first_max row a -> is_first_np_max row a.
Proof.
  intros Hfree [Ha [Hle Hlt]].
  assert (Hn : forall j, j < length row -> is_nan (nth j row nan) = false)
    by (intros j Hj; apply nan_free_nth; assumption).
  split; [exact Ha|]. split.
  - intros j Hj. unfold np_le. rewrite (Hn a Ha), (Hle j Hj). reflexivity.
  - intros j Hj. unfold np_lt, np_le.
    rewrite (Hn j) by lia.
    rewrite (ltb_not_leb (nth j row nan) (nth a row nan)); auto.
    apply Hn. lia.
Qed.

Lemma first_nan_np row a : is_first_nan row a -> is_first_np_max row a.
Proof.
  intros [Ha [Hnan Hbefore]]. split; [exact Ha|]. split.
  - intros j Hj. unfold np_le. rewrite Hnan. reflexivity.
  - intros j Hj. unfold np_lt, np_le. rewrite (Hbefore j Hj).
    destruct (nth a row nan); try discriminate. reflexivity.
Qed.

Lemma nan_free_or_not row :
  nan_free row \/ Exists (fun x => is_nan x = true) row.
Proof.
  unfold nan_free. induction row as [|x row [IH|IH]].
  - left. constructor.
  - destruct (is_nan x) eqn:E.
    + right. apply Exists_cons_hd. exact E.
    + left. constructor; assumption.
  - right. apply Exists_cons_tl. exact IH.
Qed.

(** On every row, [argmax] is the first index of the maximum in the order
    that puts NaN on top. *)
Lemma argmax1_np_max row a : argmax1 row = Ok a -> is_first_np_max row a.
Proof.
  intros H. destruct (nan_free_or_not row) as [Hfree|Hex].
  - apply first_max_np; [assumption|]. apply argmax1_first_max; assumption.
  - apply first_nan_np, argmax1_first_nan; assumption.
Qed.

(** ** The encoder delta, entry by entry *)

Lemma compute_clustering_loss_eq self observed_arr reconstructed_arr
    feature_arr delta_arr q_arr p_arr labels dk :
  __assign_label q_arr = Ok labels ->
  delta_kmeans labels delta_arr = Ok dk ->
  compute_clustering_loss self observed_arr reconstructed_arr feature_arr
    delta_arr q_arr p_arr
  = Ok (scale (__weight self) (np_nanmean_axis1 dk), None, None).
Proof.
  intros Hl Hd. unfold compute_clustering_loss. rewrite Hl. simpl.
  rewrite Hd. reflexivity.
Qed.

Lemma nanmean_entry w (dk : ndarray3) n rows d :
  nth_error dk n = Some rows -> d < shape1 rows ->
  exists row,
    nth_error (scale w (np_nanmean_axis1 dk)) n = Some row /\
    nth_error row d = Some (mul (nanmean1 (column nan rows d)) w).
Proof.
  intros Hn Hd. unfold scale, np_nanmean_axis1. rewrite map_map.
  eexists. split.
  - apply map_nth_error. exact Hn.
  - unfold columns. rewrite map_map, map_map.
    apply map_nth_error with (f := fun d => mul (nanmean1 (column nan rows d)) w).
    rewrite nth_error_seq.
    destruct (Nat.ltb_spec d (shape1 rows)); [reflexivity|lia].
Qed.

Lemma encoder_entry w labels delta_arr n l rows d :
  nth_error labels n = Some l -> nth_error delta_arr n = Some rows ->
  d < shape1 rows ->
  exists row,
    nth_error (scale w (np_nanmean_axis1 (masked labels delta_arr))) n
      = Some row /\
    nth_error row d = Some (mul (nanmean1 (mcol l (column nan rows d))) w).
Proof.
  intros Hl Hrows Hd.
  assert (Hn : nth_error (masked labels delta_arr) n = Some (masked_rows l rows)).
  { unfold masked.
    apply (map_nth_error (fun lr => masked_rows (fst lr) (snd lr)) n
             (combine labels delta_arr) (d := (l, rows))).
    apply nth_error_combine; assumption. }
  destruct (nanmean_entry w _ n _ d Hn) as [row [H1 H2]].
  - rewrite shape1_masked_rows. exact Hd.
  - exists row. split; [exact H1|].
    rewrite column_masked_rows in H2. exact H2.
Qed.

(** The entry [n, d] of the encoder delta, from the slice
    [delta_arr[n, :, d]] and the label [l] of the sample: the selected
    square, or zero when it is NaN, over the number of entries of the
    masked slice that are not NaN, times the weight. *)
Lemma masked_entry (self : KMeansLoss)
    (observed_arr reconstructed_arr feature_arr : ndarray2)
    (delta_arr q_arr : ndarray3) (p_arr : ndarray2)
    (N K D M : nat) (labels : list nat) (n l : nat) (rows : ndarray2)
    (d : nat) (x : float64) :
  rect3 N K D delta_arr -> rect3 N K M q_arr ->
  __assign_label q_arr = Ok labels ->
  nth_error labels n = Some l -> nth_error delta_arr n = Some rows ->
  d < D -> nth_error (column nan rows d) l = Some x ->
  exists dk mrows enc row,
    delta_kmeans labels delta_arr = Ok dk /\
    nth_error dk n = Some mrows /\
    column nan mrows d = mcol l (column nan rows d) /\
    compute_clustering_loss self observed_arr reconstructed_arr feature_arr
      delta_arr q_arr p_arr = Ok (enc, None, None) /\
    nth_error enc n = Some row /\
    nth_error row d
    = Some (mul (div (nan_to_zero (mul one (square x)))
                     (of_nat (K - count_nan (column nan mrows d))))
                (__weight self)).
Proof.
  intros Hd Hq Hl Hn Hrows Hlt Hx.
  destruct (assign_label_shape N K M q_arr labels Hq Hl) as [Hlen Hbound].
  pose proof (delta_kmeans_ok N K D labels delta_arr Hd Hlen Hbound) as Hdk.
  pose proof (rect3_row N K D delta_arr n rows Hd Hrows) as Hrect.
  assert (HK : 1 <= K).
  { rewrite Forall_forall in Hbound.
    specialize (Hbound l (nth_error_In _ _ Hn)). lia. }
  assert (Hs : d < shape1 rows)
    by (rewrite (rect2_shape1 K D rows Hrect HK); exact Hlt).
  destruct (encoder_entry (__weight self) labels delta_arr n l rows d Hn Hrows Hs)
    as [row [H1 H2]].
  exists (masked labels delta_arr), (masked_rows l rows),
    (scale (__weight self) (np_nanmean_axis1 (masked labels delta_arr))), row.
  split; [exact Hdk|]. split.
  { unfold masked.
    apply (map_nth_error (fun lr => masked_rows (fst lr) (snd lr)) n
             (combine labels delta_arr) (d := (l, rows))).
    apply nth_error_combine; assumption. }
  split; [apply column_masked_rows|]. split.
  { eapply compute_clustering_loss_eq; eassumption. }
  split; [exact H1|].
  rewrite H2, (nanmean1_mcol l _ x Hx), column_masked_rows.
  unfold column at 1. rewrite length_map.
  destruct Hrect as [-> _]. reflexivity.
Qed.

(** ** The claims *)

(** C1. For N=2, K=2, D=1, weight 1, delta_arr = [[[1],[3]],[[2],[5]]] and
    q_arr = [[[0.9],[0.1]],[[0.2],[0.8]]], whatever the observed,
    reconstructed, feature and p arrays are: the labels are [0, 1], the mask
    is [[[1],[0]],[[0],[1]]], the masked squared delta is
    [[[1],[0]],[[0],[25]]], its mean over the cluster axis (the masked zeros
    counted in the denominator) is [[0.5],[12.5]], and
    compute_clustering_loss returns that as the encoder delta, with None for
    the decoder and centroid deltas. *)
Theorem C1_worked_example
    (observed_arr reconstructed_arr feature_arr p_arr : ndarray2) :
  __assign_label ex_q = Ok [0; 1] /\
  one_hot_mask [0; 1] (shape1 ex_delta)
    = Ok [ [ [of_Z 1]; [zero] ]; [ [zero]; [of_Z 1] ] ] /\
  delta_kmeans [0; 1] ex_delta
    = Ok [ [ [of_Z 1]; [zero] ]; [ [zero]; [of_Z 25] ] ] /\
  np_nanmean_axis1 [ [ [of_Z 1]; [zero] ]; [ [zero]; [of_Z 25] ] ]
    = [ [dec 1 2]; [dec 25 2] ] /\
  compute_clustering_loss (__init__ (Some (of_Z 1)))
    observed_arr reconstructed_arr feature_arr ex_delta ex_q p_arr
    = Ok ([ [dec 1 2]; [dec 25 2] ], None, None).
Proof. repeat split; vm_compute; reflexivity. Qed.

(** C2, as the code has it.  Take a slice [delta_arr[n, :, d]] of K > 1
    entries of which exactly one is NaN, the masked-out ones among the
    others having finite squares, and let [x] be the selected entry.  If
    [x] is a number, the entry [n, d] of the encoder delta is
    [1.0 * x^2 / (K - 1)] times the weight, which is not NaN for a finite
    non-zero weight.  If [x] is the NaN, it is excluded as well: the entry
    is [0 / (K - 1)] times the weight, a zero for every finite weight, and
    not NaN. *)
Theorem C2_one_nan_in_slice (self : KMeansLoss)
    (observed_arr reconstructed_arr feature_arr : ndarray2)
    (delta_arr q_arr : ndarray3) (p_arr : ndarray2)
    (N K D M : nat) (labels : list nat) (n l : nat) (rows : ndarray2)
    (d : nat) (x : float64) :
  rect3 N K D delta_arr -> rect3 N K M q_arr ->
  __assign_label q_arr = Ok labels ->
  nth_error labels n = Some l -> nth_error delta_arr n = Some rows ->
  d < D -> nth_error (column nan rows d) l = Some x ->
  1 < K -> (Z.of_nat K < 2 ^ 53)%Z ->
  count_nan (column nan rows d) = 1 ->
  tame_others l (column nan rows d) ->
  exists enc row e,
    compute_clustering_loss self observed_arr reconstructed_arr feature_arr
      delta_arr q_arr p_arr = Ok (enc, None, None) /\
    nth_error enc n = Some row /\
    nth_error row d = Some e /\
    (is_nan x = false ->
       e = mul (div (mul one (square x)) (of_nat (K - 1))) (__weight self) /\
       (is_finite (__weight self) = true -> is_zero (__weight self) = false ->
        is_nan e = false)) /\
    (is_nan x = true ->
       e = mul (div zero (of_nat (K - 1))) (__weight self) /\
       (is_finite (__weight self) = true ->
        is_zero e = true /\ is_nan e = false)).
Proof.
  intros Hd Hq Hl Hn Hrows Hlt Hx HK Hbig Hone Htame.
  destruct (masked_entry self observed_arr reconstructed_arr feature_arr
              delta_arr q_arr p_arr N K D M labels n l rows d x
              Hd Hq Hl Hn Hrows Hlt Hx)
    as [dk [mrows [enc [row [_ [_ [Hcol [H1 [H2 H3]]]]]]]]].
  rewrite Hcol, (count_nan_mcol l _ Htame), Hone in H3.
  destruct (of_nat_finite (K - 1) ltac:(lia) ltac:(lia)) as [mk [ek Hk]].
  eexists enc, row, _. split; [exact H1|]. split; [exact H2|].
  split; [exact H3|]. unfold nan_to_zero. rewrite selected_is_nan.
  split; intros Hnan; rewrite Hnan; (split; [reflexivity|]).
  - intros Hfin Hnz. rewrite Hk.
    pose proof (mul_one_sign _ (square_sign x Hnan)) as Hv.
    pose proof (div_sign false _ false mk ek Hv) as Hr. simpl xorb in Hr.
    destruct (__weight self) as [sw|sw| |sw mw ew]; try discriminate.
    apply sign_is_not_nan with (s := xorb false sw).
    apply mul_sign; auto; try reflexivity.
    apply orb_true_r.
  - intros Hfin. rewrite Hk, div_zero_finite.
    destruct (__weight self); try discriminate; split; reflexivity.
Qed.

Lemma C2_witness :
  exists enc row e,
    compute_clustering_loss (__init__ (Some one)) [] [] []
      delta_selected_nan q_first_of_two [] = Ok (enc, None, None) /\
    nth_error enc 0 = Some row /\
    nth_error row 0 = Some e /\
    (is_nan nan = false ->
       e = mul (div (mul one (square nan)) (of_nat (2 - 1)))
             (__weight (__init__ (Some one))) /\
       (is_finite (__weight (__init__ (Some one))) = true ->
        is_zero (__weight (__init__ (Some one))) = false ->
        is_nan e = false)) /\
    (is_nan nan = true ->
       e = mul (div zero (of_nat (2 - 1))) (__weight (__init__ (Some one))) /\
       (is_finite (__weight (__init__ (Some one))) = true ->
        is_zero e = true /\ is_nan e = false)).
Proof.
  apply (C2_one_nan_in_slice (__init__ (Some one)) [] [] []
           delta_selected_nan q_first_of_two []
           1 2 1 1 [0] 0 0 [ [nan]; [of_Z 3] ] 0 nan).
  - split; [reflexivity|]. repeat constructor.
  - split; [reflexivity|]. repeat constructor.
  - vm_compute. reflexivity.
  - reflexivity.
  - reflexivity.
  - lia.
  - reflexivity.
  - lia.
  - vm_compute. reflexivity.
  - reflexivity.
  - intros [|[|k]] y Hk Hy; simpl in Hy.
    + lia.
    + injection Hy as <-. right. vm_compute. reflexivity.
    + destruct k; discriminate.
Defined.

(** C2, as stated, fails on [delta_selected_nan]: the selected entry is the
    only NaN of the slice, the weight is 1, and the entry of the encoder
    delta is 0.0, not NaN. *)
Lemma C2_counterexample :
  __assign_label q_first_of_two = Ok [0] /\
  column nan [ [nan]; [of_Z 3] ] 0 = [nan; of_Z 3] /\
  is_nan (of_Z 3) = false /\
  compute_clustering_loss (__init__ (Some one)) [] [] []
    delta_selected_nan q_first_of_two [] = Ok ([ [zero] ], None, None) /\
  is_nan zero = false.
Proof. repeat split; vm_compute; reflexivity. Qed.

(** C3, as the code has it.  The method validates no shape.  The observed,
    reconstructed, feature and p arrays are never read, so the outcome is
    the same whatever they are.  Of q_arr and delta_arr the only mismatches
    that raise are those NumPy rejects on its own: a label beyond the
    cluster axis of delta_arr (IndexError) and sample axes of different
    extents neither of which is 1 (ValueError).  A q_arr with fewer clusters
    than delta_arr is accepted and a result is returned. *)
Theorem C3_no_shape_validation (self : KMeansLoss)
    (observed_arr reconstructed_arr feature_arr : ndarray2)
    (delta_arr q_arr : ndarray3) (p_arr : ndarray2) (labels : list nat) :
  __assign_label q_arr = Ok labels ->
  (forall observed_arr' reconstructed_arr' feature_arr' p_arr',
     compute_clustering_loss self observed_arr' reconstructed_arr'
       feature_arr' delta_arr q_arr p_arr'
     = compute_clustering_loss self observed_arr reconstructed_arr
         feature_arr delta_arr q_arr p_arr) /\
  (Exists (fun l => shape1 delta_arr <= l) labels ->
     compute_clustering_loss self observed_arr reconstructed_arr
       feature_arr delta_arr q_arr p_arr = Raise IndexError) /\
  (Forall (fun l => l < shape1 delta_arr) labels ->
   length labels <> length delta_arr ->
   length labels <> 1 -> length delta_arr <> 1 ->
     compute_clustering_loss self observed_arr reconstructed_arr
       feature_arr delta_arr q_arr p_arr = Raise ValueError) /\
  (forall N K D K' M,
     rect3 N K D delta_arr -> rect3 N K' M q_arr -> K' <= K ->
     exists enc,
       compute_clustering_loss self observed_arr reconstructed_arr
         feature_arr delta_arr q_arr p_arr = Ok (enc, None, None)).
Proof.
  intros Hl. split; [reflexivity|]. split; [|split].
  - intros Hex. unfold compute_clustering_loss, delta_kmeans.
    rewrite Hl. cbn [bind].
    rewrite one_hot_mask_out_of_range by exact Hex. reflexivity.
  - intros Hlt Hne H1 H2. unfold compute_clustering_loss, delta_kmeans.
    rewrite Hl. cbn [bind]. rewrite one_hot_mask_ok by exact Hlt.
    cbn [bind]. rewrite multiply_sample_axis_mismatch by assumption.
    reflexivity.
  - intros N K D K' M Hd Hq HK.
    destruct (assign_label_shape N K' M q_arr labels Hq Hl) as [Hlen Hbound].
    eexists. eapply compute_clustering_loss_eq; [exact Hl|].
    apply (delta_kmeans_ok N K D); [assumption|assumption|].
    eapply Forall_impl; [|exact Hbound]. intros l Hlk. simpl in Hlk. lia.
Qed.

Lemma C3_witness :
  (forall observed_arr' reconstructed_arr' feature_arr' p_arr',
     compute_clustering_loss (__init__ None) observed_arr' reconstructed_arr'
       feature_arr' ex_delta q_third_of_three p_arr'
     = compute_clustering_loss (__init__ None) [] [] []
         ex_delta q_third_of_three []) /\
  compute_clustering_loss (__init__ None) [] [] [] ex_delta q_third_of_three []
  = Raise IndexError.
Proof.
  destruct (C3_no_shape_validation (__init__ None) [] [] []
              ex_delta q_third_of_three [] [2; 2]) as [H1 [H2 _]].
  - vm_compute. reflexivity.
  - split; [exact H1|]. apply H2.
    apply Exists_cons_hd. vm_compute. lia.
Defined.

(** C3, as stated, fails: a target distribution with one cluster against
    differences with two, an observed array of another shape altogether and
    a 1 * 1 soft assignment give a result; so does a target distribution
    with one sample against differences with two, its mask being repeated
    along the sample axis. *)
Lemma C3_counterexample :
  rect3 2 2 1 ex_delta /\
  rect3 2 1 1 q_one_cluster /\
  compute_clustering_loss (__init__ (Some one)) [ [one; one; one] ] [] []
    ex_delta q_one_cluster [ [one] ]
  = Ok ([ [dec 1 2]; [of_Z 2] ], None, None) /\
  rect3 1 2 1 q_first_of_two /\
  compute_clustering_loss (__init__ (Some one)) [] [] []
    ex_delta q_first_of_two []
  = Ok ([ [dec 1 2]; [of_Z 2] ], None, None).
Proof.
  split; [split; [reflexivity|repeat constructor]|].
  split; [split; [reflexivity|repeat constructor]|].
  split; [vm_compute; reflexivity|].
  split; [split; [reflexivity|repeat constructor]|].
  vm_compute; reflexivity.
Qed.

(** C4, as the code has it.  [q2] is the N * K matrix that [argmax]
    receives at line 69, K >= 1.  Label assignment returns one label per
    sample: the first index of the maximum of the sample's row in the order
    of [argmax], in which NaN is above every number.  On a row without NaN
    that is the index of the greatest number of the row, the first such
    index on ties.  For q_arr of shape N * K * M with 1 <= M < 8, [q2] is
    the collapsed q_arr (the reshape when M = 1, the NaN-tolerant mean when
    M > 1) and the labels are those of [__assign_label]; the rows of [q2]
    are without NaN when M = 1 and q_arr holds no NaN, and when every entry
    of q_arr is finite. *)
Theorem C4_label_is_first_maximum (n k : nat) (q2 : ndarray2) :
  rect2 n k q2 -> 1 <= k ->
  exists labels,
    argmax_axis1 q2 = Ok labels /\
    length labels = n /\
    Forall2 is_first_np_max q2 labels /\
    Forall2 (fun row a => nan_free row -> is_first_max row a) q2 labels /\
    (forall (m : nat) (q_arr : ndarray3),
       rect3 n k m q_arr -> 1 <= m -> m < 8 -> collapsed q_arr = q2 ->
       collapse_trailing q_arr = Ok q2 /\
       __assign_label q_arr = Ok labels /\
       (m = 1 -> q2 = map (map (hd nan)) q_arr) /\
       (1 < m -> q2 = np_nanmean_axis2 q_arr) /\
       (m = 1 ->
        Forall (Forall (Forall (fun x => is_nan x = false))) q_arr ->
        Forall2 is_first_max q2 labels) /\
       (Forall (Forall (Forall (fun x => is_finite x = true))) q_arr ->
        Forall2 is_first_max q2 labels)).
Proof.
  intros Hrect Hk.
  destruct (argmax_axis1_rect n k q2 Hrect Hk) as [labels Ha].
  pose proof Ha as Ha'. apply mapM_Forall2 in Ha'.
  assert (Hmax : Forall nan_free q2 -> Forall2 is_first_max q2 labels).
  { intros Hfree. clear Ha Hrect.
    induction Ha' as [|row a q2' labels' Hrow _ IH]; [constructor|].
    inversion Hfree; subst. constructor; [|apply IH; assumption].
    apply argmax1_first_max; assumption. }
  exists labels. split; [exact Ha|].
  split; [rewrite (argmax_axis1_length q2 labels Ha); apply Hrect|].
  split; [eapply Forall2_impl; [|exact Ha']; intros row a;
          apply argmax1_np_max|].
  split; [eapply Forall2_impl; [|exact Ha']; intros row a Hrow Hfree;
          apply argmax1_first_max; assumption|].
  intros m q_arr Hq Hm Hm8 Hcol.
  destruct (assign_label_collapsed n k m q_arr q2 labels Hq Hm Hcol Ha)
    as [Hc Hl].
  split; [exact Hc|]. split; [exact Hl|].
  split; [intros ->; rewrite <- Hcol; eapply collapsed_reshape, Hq|].
  split; [intros Hm'; rewrite <- Hcol; eapply collapsed_nanmean;
          eassumption|].
  split.
  - intros -> Hfree. apply Hmax. rewrite <- Hcol.
    eapply collapsed_nan_free; eassumption.
  - intros Hfin. apply Hmax. rewrite <- Hcol.
    eapply (collapsed_finite n k m); try eassumption.
    apply Z.lt_trans with 8%Z; [lia|reflexivity].
Qed.

(** Two estimates per cell, all of them finite: the labels are the indices
    of the greater mean of each sample. *)
Lemma C4_witness :
  exists labels,
    argmax_axis1 (collapsed q_two_estimates) = Ok labels /\
    length labels = 2 /\
    collapse_trailing q_two_estimates = Ok (collapsed q_two_estimates) /\
    __assign_label q_two_estimates = Ok labels /\
    collapsed q_two_estimates = np_nanmean_axis2 q_two_estimates /\
    Forall2 is_first_max (collapsed q_two_estimates) labels.
Proof.
  destruct (C4_label_is_first_maximum 2 2 (collapsed q_two_estimates))
    as [labels [Ha [Hlen [_ [_ Hq]]]]].
  - split; [reflexivity|]. repeat constructor.
  - lia.
  - destruct (Hq 2 q_two_estimates) as [Hc [Hl [_ [Hmean [_ Hfin]]]]].
    + split; [reflexivity|]. repeat constructor.
    + lia.
    + lia.
    + reflexivity.
    + exists labels. split; [exact Ha|]. split; [exact Hlen|].
      split; [exact Hc|]. split; [exact Hl|].
      split; [apply Hmean; lia|]. apply Hfin. repeat constructor.
Defined.

(** C4, as stated, fails on [q_infinities], of shape 1 * 2 * 2 and without
    NaN: the mean of the two infinities is NaN, [argmax] receives the row
    [nan, 1.0] and the label is 0, the index of the NaN, although the only
    number of the row, and so its greatest value, is the 1.0 at index 1. *)
Lemma C4_counterexample :
  rect3 1 2 2 q_infinities /\
  Forall (Forall (Forall (fun x => is_nan x = false))) q_infinities /\
  collapse_trailing q_infinities = Ok [ [nan; one] ] /\
  __assign_label q_infinities = Ok [0] /\
  leb one nan = false /\
  ~ is_first_max [nan; one] 0.
Proof.
  split; [|split; [|split; [|split; [|split]]]].
  - split; [reflexivity|]. repeat constructor.
  - repeat constructor.
  - vm_compute. reflexivity.
  - vm_compute. reflexivity.
  - vm_compute. reflexivity.
  - intros [_ [H _]]. specialize (H 1 ltac:(simpl; lia)).
    vm_compute in H. discriminate.
Qed.

(** C5. For a label vector of length N with every label in [0, K), the
    mask is built (no exception), it is N * K * 1, the row of a sample
    labelled l holds 1 at cluster l and 0 at every other cluster, so exactly
    one entry of each row is 1, and all the entries sum to N. *)
Theorem C5_mask_is_one_hot (labels : list nat) (k : nat) :
  Forall (fun l => l < k) labels ->
  exists mask,
    one_hot_mask labels k = Ok mask /\
    rect3 (length labels) k 1 mask /\
    (forall n l, nth_error labels n = Some l ->
       exists rows, nth_error mask n = Some rows /\
         forall j, j < k ->
           nth_error rows j = Some [if j =? l then one else zero]) /\
    mask_total mask = Z.of_nat (length labels).
Proof.
  intros H. exists (one_hot k labels).
  split; [apply one_hot_mask_ok, H|]. split; [|split].
  - unfold one_hot. split; [apply length_map|].
    apply Forall_map, Forall_forall. intros l _. unfold one_hot_row. split.
    + rewrite !length_map. apply length_seq.
    + apply Forall_map, Forall_forall. reflexivity.
  - intros n l Hn. eexists. split.
    + unfold one_hot. apply map_nth_error. exact Hn.
    + intros j Hj. unfold one_hot_row. rewrite map_map.
      apply (map_nth_error (fun x => [hot l x])).
      rewrite nth_error_seq.
      destruct (Nat.ltb_spec j k); [reflexivity|lia].
  - apply one_hot_total, H.
Qed.

Lemma C5_witness :
  exists mask,
    one_hot_mask [0; 1] 2 = Ok mask /\
    rect3 2 2 1 mask /\
    mask_total mask = 2%Z.
Proof.
  destruct (C5_mask_is_one_hot [0; 1] 2) as [mask [H1 [H2 [_ H3]]]].
  - repeat constructor.
  - exists mask. split; [|split]; assumption.
Defined.

(** C6. When all the cluster-axis entries of the masked squared-distance
    tensor at [n, :, d] are NaN, the call still returns, and the entry
    [n, d] of the encoder delta is NaN (0/0 of the tolerant mean, times the
    weight), not zero. *)
Theorem C6_all_nan_slice_is_nan (self : KMeansLoss)
    (observed_arr reconstructed_arr feature_arr : ndarray2)
    (delta_arr q_arr : ndarray3) (p_arr : ndarray2)
    (labels : list nat) (dk : ndarray3) (n d : nat) (rows : ndarray2) :
  __assign_label q_arr = Ok labels ->
  delta_kmeans labels delta_arr = Ok dk ->
  nth_error dk n = Some rows -> d < shape1 rows ->
  Forall (fun x => is_nan x = true) (column nan rows d) ->
  exists enc row,
    compute_clustering_loss self observed_arr reconstructed_arr feature_arr
      delta_arr q_arr p_arr = Ok (enc, None, None) /\
    nth_error enc n = Some row /\
    nth_error row d = Some nan.
Proof.
  intros Hl Hdk Hn Hd Hnan.
  destruct (nanmean_entry (__weight self) dk n rows d Hn Hd) as [row [H1 H2]].
  exists (scale (__weight self) (np_nanmean_axis1 dk)), row.
  split; [|split].
  - eapply compute_clustering_loss_eq; eassumption.
  - exact H1.
  - rewrite H2. f_equal. unfold nanmean1.
    destruct (np_sum_all_nan _ Hnan) as [-> ->].
    rewrite of_nat_0, div_zero_zero. apply mul_nan_l.
Qed.

Lemma C6_witness :
  exists enc row,
    compute_clustering_loss (__init__ None) [] [] []
      [ [ [nan]; [nan] ] ] [ [ [dec 9 10]; [dec 1 10] ] ] []
      = Ok (enc, None, None) /\
    nth_error enc 0 = Some row /\
    nth_error row 0 = Some nan.
Proof.
  apply (C6_all_nan_slice_is_nan (__init__ None) [] [] []
           [ [ [nan]; [nan] ] ] [ [ [dec 9 10]; [dec 1 10] ] ] []
           [0] [ [ [nan]; [nan] ] ] 0 0 [ [nan]; [nan] ]).
  - vm_compute. reflexivity.
  - vm_compute. reflexivity.
  - reflexivity.
  - vm_compute. lia.
  - repeat constructor.
Defined.

(** C7, as the code has it.  The mean of the masked squares does not
    depend on the weight.  With weight [c * w] (the binary64 product) every
    entry of the encoder delta is that mean times [c * w]; with weight [w]
    it is that mean times [w].  When [c], [w] and [c * w] are finite and not
    zero, the two deltas have NaN at the same entries, and where the mean
    is a zero, an infinity or NaN the first entry is exactly [c] times the
    second.  Elsewhere each side is rounded on its own and the two need not
    agree. *)
Theorem C7_weight_scales_the_mean (c w : float64)
    (observed_arr reconstructed_arr feature_arr : ndarray2)
    (delta_arr q_arr : ndarray3) (p_arr : ndarray2)
    (labels : list nat) (dk : ndarray3) :
  __assign_label q_arr = Ok labels ->
  delta_kmeans labels delta_arr = Ok dk ->
  compute_clustering_loss (__init__ (Some (mul c w))) observed_arr
    reconstructed_arr feature_arr delta_arr q_arr p_arr
  = Ok (map (map (fun x => mul x (mul c w))) (np_nanmean_axis1 dk),
        None, None) /\
  compute_clustering_loss (__init__ (Some w)) observed_arr
    reconstructed_arr feature_arr delta_arr q_arr p_arr
  = Ok (map (map (fun x => mul x w)) (np_nanmean_axis1 dk), None, None) /\
  (is_regular c = true -> is_regular w = true ->
   is_regular (mul c w) = true ->
   forall x,
     is_nan (mul x (mul c w)) = is_nan (mul x w) /\
     (is_regular x = false -> mul x (mul c w) = mul c (mul x w))).
Proof.
  intros Hl Hdk. split; [|split].
  - apply (compute_clustering_loss_eq (__init__ (Some (mul c w))) observed_arr
             reconstructed_arr feature_arr delta_arr q_arr p_arr labels dk
             Hl Hdk).
  - apply (compute_clustering_loss_eq (__init__ (Some w)) observed_arr
             reconstructed_arr feature_arr delta_arr q_arr p_arr labels dk
             Hl Hdk).
  - intros Hc Hw Hcw x. split.
    + rewrite !mul_regular_is_nan by assumption. reflexivity.
    + intros Hx. apply mul_assoc_special; assumption.
Qed.

Lemma C7_witness :
  compute_clustering_loss (__init__ (Some (mul (of_Z 3) (dec 1 10)))) [] [] []
    delta_five q_single []
  = Ok (map (map (fun x => mul x (mul (of_Z 3) (dec 1 10))))
          (np_nanmean_axis1 [ [ [of_Z 25] ] ]), None, None) /\
  compute_clustering_loss (__init__ (Some (dec 1 10))) [] [] []
    delta_five q_single []
  = Ok (map (map (fun x => mul x (dec 1 10)))
          (np_nanmean_axis1 [ [ [of_Z 25] ] ]), None, None) /\
  mul zero (mul (of_Z 3) (dec 1 10)) = mul (of_Z 3) (mul zero (dec 1 10)).
Proof.
  destruct (C7_weight_scales_the_mean (of_Z 3) (dec 1 10) [] [] []
              delta_five q_single [] [0] [ [ [of_Z 25] ] ])
    as [H1 [H2 H3]].
  - vm_compute. reflexivity.
  - vm_compute. reflexivity.
  - split; [exact H1|]. split; [exact H2|].
    apply H3; reflexivity.
Defined.

(** C7, as stated, fails for c = 3 and w = 0.1 on one sample, one cluster
    and the difference 5: with weight [3 * 0.1] the encoder delta is
    7.500000000000001, and 3 times the encoder delta for weight 0.1 is
    7.5. *)
Lemma C7_counterexample :
  is_nan (of_Z 5) = false /\
  ltb zero (of_Z 3) = true /\
  compute_clustering_loss (__init__ (Some (mul (of_Z 3) (dec 1 10)))) [] [] []
    delta_five q_single []
  = Ok ([ [S754_finite false 8444249301319681 (-50)] ], None, None) /\
  compute_clustering_loss (__init__ (Some (dec 1 10))) [] [] []
    delta_five q_single []
  = Ok ([ [dec 5 2] ], None, None) /\
  mul (of_Z 3) (dec 5 2) = S754_finite false 8444249301319680 (-50) /\
  S754_finite false 8444249301319681 (-50) <> mul (of_Z 3) (dec 5 2).
Proof.
  repeat split; try (vm_compute; reflexivity).
  vm_compute. discriminate.
Qed.

(** C8. Constructed without a weight, the instance holds 0.125; for every
    input of consistent shape (N * K * D differences, N * K * M target
    distribution, K >= 1, M >= 1) the call returns, and the encoder delta is
    0.125 times the NaN-tolerant cluster-axis mean of the masked squared
    differences, entry by entry; the other two deltas are None. *)
Theorem C8_default_weight
    (observed_arr reconstructed_arr feature_arr : ndarray2)
    (delta_arr q_arr : ndarray3) (p_arr : ndarray2) (n k d m : nat) :
  rect3 n k d delta_arr -> rect3 n k m q_arr -> 1 <= k -> 1 <= m ->
  __weight (__init__ None) = S754_finite false 4503599627370496 (-55) /\
  exists labels dk,
    __assign_label q_arr = Ok labels /\
    delta_kmeans labels delta_arr = Ok dk /\
    compute_clustering_loss (__init__ None) observed_arr reconstructed_arr
      feature_arr delta_arr q_arr p_arr
    = Ok (map (map (fun x => mul (dec 1 8) x)) (np_nanmean_axis1 dk),
          None, None).
Proof.
  intros Hd Hq Hk Hm. split; [reflexivity|].
  destruct (assign_label_total n k m q_arr Hq Hk Hm) as [labels Hl].
  destruct (assign_label_shape n k m q_arr labels Hq Hl) as [Hlen Hlt].
  exists labels, (masked labels delta_arr).
  pose proof (delta_kmeans_ok n k d labels delta_arr Hd Hlen Hlt) as Hdk.
  split; [exact Hl|]. split; [exact Hdk|].
  rewrite (compute_clustering_loss_eq (__init__ None) observed_arr
             reconstructed_arr feature_arr delta_arr q_arr p_arr
             labels (masked labels delta_arr) Hl Hdk).
  unfold scale. do 3 f_equal.
  apply map_ext. intros row. apply map_ext. intros x.
  apply mul_comm.
Qed.

Lemma C8_witness :
  __weight (__init__ None) = S754_finite false 4503599627370496 (-55) /\
  exists labels dk,
    __assign_label ex_q = Ok labels /\
    delta_kmeans labels ex_delta = Ok dk /\
    compute_clustering_loss (__init__ None) [] [] [] ex_delta ex_q []
    = Ok (map (map (fun x => mul (dec 1 8) x)) (np_nanmean_axis1 dk),
          None, None).
Proof.
  apply (C8_default_weight [] [] [] ex_delta ex_q [] 2 2 1 1).
  - split; [reflexivity|]. repeat constructor.
  - split; [reflexivity|]. repeat constructor.
  - lia.
  - lia.
Defined.

(** C9, as the code has it.  When the selected entry [x] of the slice
    [delta_arr[n, :, d]] is a number, the entry [n, d] of the encoder delta
    is the selected square [1.0 * x^2] divided by K minus the number of NaN
    entries of the masked slice, times the weight.  The masked entry of
    another cluster is [0.0 * y^2], which is NaN exactly when [y^2] is not
    finite; when the other entries are NaN or have finite squares, the NaN
    entries of the masked slice are as many as those of the slice of
    delta_arr. *)
Theorem C9_nan_shrinks_denominator (self : KMeansLoss)
    (observed_arr reconstructed_arr feature_arr : ndarray2)
    (delta_arr q_arr : ndarray3) (p_arr : ndarray2)
    (N K D M : nat) (labels : list nat) (n l : nat) (rows : ndarray2)
    (d : nat) (x : float64) :
  rect3 N K D delta_arr -> rect3 N K M q_arr ->
  __assign_label q_arr = Ok labels ->
  nth_error labels n = Some l -> nth_error delta_arr n = Some rows ->
  d < D -> nth_error (column nan rows d) l = Some x ->
  is_nan x = false ->
  exists dk mrows enc row,
    delta_kmeans labels delta_arr = Ok dk /\
    nth_error dk n = Some mrows /\
    compute_clustering_loss self observed_arr reconstructed_arr feature_arr
      delta_arr q_arr p_arr = Ok (enc, None, None) /\
    nth_error enc n = Some row /\
    nth_error row d
    = Some (mul (div (mul one (square x))
                     (of_nat (K - count_nan (column nan mrows d))))
                (__weight self)) /\
    (forall k y, k <> l -> nth_error (column nan rows d) k = Some y ->
       nth_error (column nan mrows d) k = Some (mul zero (square y)) /\
       is_nan (mul zero (square y)) = negb (is_finite (square y))) /\
    (tame_others l (column nan rows d) ->
       count_nan (column nan mrows d) = count_nan (column nan rows d)).
Proof.
  intros Hd Hq Hl Hn Hrows Hlt Hx Hnan.
  destruct (masked_entry self observed_arr reconstructed_arr feature_arr
              delta_arr q_arr p_arr N K D M labels n l rows d x
              Hd Hq Hl Hn Hrows Hlt Hx)
    as [dk [mrows [enc [row [Hdk [Hm [Hcol [H1 [H2 H3]]]]]]]]].
  exists dk, mrows, enc, row.
  split; [exact Hdk|]. split; [exact Hm|]. split; [exact H1|].
  split; [exact H2|]. split; [|split].
  - rewrite H3. unfold nan_to_zero. rewrite selected_is_nan, Hnan.
    reflexivity.
  - intros k y Hk Hy. rewrite Hcol. split; [|apply masked_out_is_nan].
    rewrite (nth_error_mcol l _ k y Hy). unfold hot.
    destruct (Nat.eqb_spec k l); [contradiction|reflexivity].
  - intros Htame. rewrite Hcol. apply count_nan_mcol, Htame.
Qed.

(** The slice [2, NaN, inf] with label 0: both masked-out entries are NaN
    in the masked slice and the denominator is 1. *)
Lemma C9_witness :
  exists enc row,
    compute_clustering_loss (__init__ (Some one)) [] [] []
      [ [ [of_Z 2]; [nan]; [inf] ] ] q_first_of_three []
      = Ok (enc, None, None) /\
    nth_error enc 0 = Some row /\
    nth_error row 0
    = Some (mul (div (mul one (square (of_Z 2))) (of_nat (3 - 2))) one).
Proof.
  destruct (C9_nan_shrinks_denominator (__init__ (Some one)) [] [] []
              [ [ [of_Z 2]; [nan]; [inf] ] ] q_first_of_three []
              1 3 1 1 [0] 0 0 [ [of_Z 2]; [nan]; [inf] ] 0 (of_Z 2))
    as [dk [mrows [enc [row [Hdk [Hm [H1 [H2 [H3 _]]]]]]]]].
  - split; [reflexivity|]. repeat constructor.
  - split; [reflexivity|]. repeat constructor.
  - vm_compute. reflexivity.
  - reflexivity.
  - reflexivity.
  - lia.
  - reflexivity.
  - reflexivity.
  - exists enc, row. split; [exact H1|]. split; [exact H2|].
    vm_compute in Hdk. injection Hdk as <-.
    simpl in Hm. injection Hm as <-. exact H3.
Defined.

(** C9, as stated, fails twice for K = 3, weight 1 and label 0.  With the
    slice [2, NaN, inf] the infinity is masked to NaN as well (0 * inf) and
    the entry is 4/1, not 4/2.  With the slice [NaN, NaN, 1] the selected
    NaN is excluded too and the entry is 0/1 = 0, not NaN. *)
Lemma C9_counterexample :
  __assign_label q_first_of_three = Ok [0] /\
  (compute_clustering_loss (__init__ (Some one)) [] [] []
     [ [ [of_Z 2]; [nan]; [inf] ] ] q_first_of_three []
   = Ok ([ [of_Z 4] ], None, None) /\
   count_nan [nan; inf] = 1 /\
   C9_claimed_entry one (of_Z 2) 3 1 = of_Z 2 /\
   of_Z 4 <> of_Z 2) /\
  (compute_clustering_loss (__init__ (Some one)) [] [] []
     [ [ [nan]; [nan]; [one] ] ] q_first_of_three []
   = Ok ([ [zero] ], None, None) /\
   count_nan [nan; one] = 1 /\
   C9_claimed_entry one nan 3 1 = nan /\
   zero <> nan).
Proof.
  split; [vm_compute; reflexivity|].
  split; repeat split; try (vm_compute; reflexivity);
    vm_compute; discriminate.
Qed.

(** C10. [q2] is the N * K matrix that [argmax] receives at line 69.
    Whenever a row of it holds at least one NaN, label assignment returns
    and the label of that sample is the index of the first NaN of the row,
    whatever the other entries are.  For q_arr of shape N * K * M with
    1 <= M < 8, [q2] is the collapsed q_arr and the labels are those of
    [__assign_label]. *)
Theorem C10_label_is_first_nan (n k : nat) (q2 : ndarray2)
    (i : nat) (row : ndarray1) :
  rect2 n k q2 ->
  nth_error q2 i = Some row ->
  Exists (fun x => is_nan x = true) row ->
  exists labels a,
    argmax_axis1 q2 = Ok labels /\
    nth_error labels i = Some a /\
    is_first_nan row a /\
    (forall (m : nat) (q_arr : ndarray3),
       rect3 n k m q_arr -> 1 <= m -> m < 8 -> collapsed q_arr = q2 ->
       collapse_trailing q_arr = Ok q2 /\ __assign_label q_arr = Ok labels).
Proof.
  intros Hrect Hrow Hex.
  assert (Hk : 1 <= k).
  { destruct Hrect as [_ Hrows]. rewrite Forall_forall in Hrows.
    rewrite <- (Hrows row (nth_error_In _ _ Hrow)).
    destruct row; [inversion Hex|simpl; lia]. }
  destruct (argmax_axis1_rect n k q2 Hrect Hk) as [labels Ha].
  pose proof Ha as Ha'. apply mapM_Forall2 in Ha'.
  destruct (Forall2_nth_error_l _ _ _ Ha' i row Hrow) as [a [Hi Harg]].
  exists labels, a. split; [exact Ha|]. split; [exact Hi|].
  split; [apply argmax1_first_nan; assumption|].
  intros m q_arr Hq Hm _ Hcol.
  exact (assign_label_collapsed n k m q_arr q2 labels Hq Hm Hcol Ha).
Qed.

(** A row whose first NaN comes before a larger number, obtained from two
    estimates per cluster. *)
Lemma C10_witness :
  exists labels a,
    argmax_axis1 [ [dec 1 10; nan; dec 9 10; nan] ] = Ok labels /\
    nth_error labels 0 = Some a /\
    is_first_nan [dec 1 10; nan; dec 9 10; nan] a /\
    collapse_trailing q_two_nan_clusters
      = Ok [ [dec 1 10; nan; dec 9 10; nan] ] /\
    __assign_label q_two_nan_clusters = Ok labels.
Proof.
  destruct (C10_label_is_first_nan 1 4 [ [dec 1 10; nan; dec 9 10; nan] ] 0
              [dec 1 10; nan; dec 9 10; nan])
    as [labels [a [Ha [Hi [Hnan Hq]]]]].
  - split; [reflexivity|]. repeat constructor.
  - reflexivity.
  - apply Exists_cons_tl, Exists_cons_hd. reflexivity.
  - destruct (Hq 2 q_two_nan_clusters) as [Hc Hl].
    + split; [reflexivity|]. repeat constructor.
    + lia.
    + lia.
    + vm_compute. reflexivity.
    + exists labels, a. split; [exact Ha|]. split; [exact Hi|].
      split; [exact Hnan|]. split; [exact Hc|exact Hl].
Defined.

(** ** Further properties of the method *)

(** *** Exceptions of label assignment *)

Lemma mapM_raise {A B : Type} (f : A -> result B) (xs : list A) e :
  mapM f xs = Raise e -> exists x, In x xs /\ f x = Raise e.
Proof.
  induction xs as [|x xs IH]; simpl; intros H; [discriminate|].
  destruct (f x) as [y|e'] eqn:Ex; simpl in H.
  - destruct (mapM f xs) as [ys|e'']; simpl in H; [discriminate|].
    destruct (IH H) as [x' [Hin Hx']]. exists x'. auto.
  - injection H as ->. exists x. auto.
Qed.

(** X1. For a target distribution of shape N * K * M, label assignment
    returns as soon as K >= 1 and M >= 1, and whenever it returns it gives
    one label per sample, each of them below K. *)
Theorem X1_labels_in_range (n k m : nat) (q_arr : ndarray3) :
  rect3 n k m q_arr ->
  (1 <= k -> 1 <= m -> exists labels, __assign_label q_arr = Ok labels) /\
  (forall labels, __assign_label q_arr = Ok labels ->
     length labels = n /\ Forall (fun l => l < k) labels).
Proof.
  intros Hrect. split.
  - intros Hk Hm. eapply assign_label_total; eassumption.
  - intros labels Hl. eapply assign_label_shape; eassumption.
Qed.

Lemma X1_witness :
  (1 <= 2 -> 1 <= 1 -> exists labels, __assign_label ex_q = Ok labels) /\
  (forall labels, __assign_label ex_q = Ok labels ->
     length labels = 2 /\ Forall (fun l => l < 2) labels).
Proof.
  apply (X1_labels_in_range 2 2 1 ex_q).
  split; [reflexivity|]. repeat constructor.
Defined.

(** X2. A target distribution with samples but an empty cluster axis makes
    label assignment, and with it the whole method, raise ValueError
    ([argmax] of an empty sequence), whatever the other arguments are. *)
Theorem X2_empty_cluster_axis (self : KMeansLoss)
    (observed_arr reconstructed_arr feature_arr : ndarray2)
    (delta_arr q_arr : ndarray3) (p_arr : ndarray2) (n m : nat) :
  rect3 n 0 m q_arr -> 1 <= n ->
  __assign_label q_arr = Raise ValueError /\
  compute_clustering_loss self observed_arr reconstructed_arr feature_arr
    delta_arr q_arr p_arr = Raise ValueError.
Proof.
  intros [Hn Hrect] Hpos.
  assert (Hnil : Forall (fun rows => rows = []) q_arr).
  { eapply Forall_impl; [|exact Hrect]. intros rows [Hk _].
    destruct rows; [reflexivity|discriminate]. }
  assert (Hl : __assign_label q_arr = Raise ValueError).
  { destruct q_arr as [|rows q_arr]; [simpl in Hn; lia|].
    inversion Hnil as [|? ? Hrows Hrest]; subst.
    unfold __assign_label, collapse_trailing. cbn [shape2 hd length Nat.ltb Nat.leb].
    unfold reshape_3_to_2. cbn [mapM bind].
    destruct (mapM _ q_arr) as [ys|e] eqn:E; cbn [bind].
    - reflexivity.
    - apply mapM_raise in E. destruct E as [rows [Hin Hr]].
      rewrite Forall_forall in Hrest. rewrite (Hrest rows Hin) in Hr.
      discriminate. }
  split; [exact Hl|]. unfold compute_clustering_loss. rewrite Hl. reflexivity.
Qed.

Lemma X2_witness :
  __assign_label [ []; [] ] = Raise ValueError /\
  compute_clustering_loss (__init__ None) [] [] [] ex_delta [ []; [] ] []
  = Raise ValueError.
Proof.
  apply (X2_empty_cluster_axis (__init__ None) [] [] [] ex_delta
           [ []; [] ] [] 2 1).
  - split; [reflexivity|]. repeat constructor.
  - lia.
Defined.

(** X3. A target distribution with samples and clusters but an empty
    trailing axis makes label assignment, and with it the whole method,
    raise ValueError (the reshape to N * K cannot succeed). *)
Theorem X3_empty_trailing_axis (self : KMeansLoss)
    (observed_arr reconstructed_arr feature_arr : ndarray2)
    (delta_arr q_arr : ndarray3) (p_arr : ndarray2) (n k : nat) :
  rect3 n k 0 q_arr -> 1 <= n -> 1 <= k ->
  __assign_label q_arr = Raise ValueError /\
  compute_clustering_loss self observed_arr reconstructed_arr feature_arr
    delta_arr q_arr p_arr = Raise ValueError.
Proof.
  intros [Hn Hrect] Hpos Hk.
  assert (Hl : __assign_label q_arr = Raise ValueError).
  { destruct q_arr as [|rows q_arr]; [simpl in Hn; lia|].
    inversion Hrect as [|? ? [Hrows Hcells] _]; subst.
    destruct rows as [|cell rows]; [simpl in Hk; lia|].
    inversion Hcells as [|? ? Hcell _]; subst.
    destruct cell; [|discriminate]. reflexivity. }
  split; [exact Hl|]. unfold compute_clustering_loss. rewrite Hl. reflexivity.
Qed.

Lemma X3_witness :
  __assign_label [ [ []; [] ] ] = Raise ValueError /\
  compute_clustering_loss (__init__ None) [] [] [] ex_delta [ [ []; [] ] ] []
  = Raise ValueError.
Proof.
  apply (X3_empty_trailing_axis (__init__ None) [] [] [] ex_delta
           [ [ []; [] ] ] [] 1 2).
  - split; [reflexivity|]. repeat constructor.
  - lia.
  - lia.
Defined.

(** *** The shape of the encoder delta *)

Lemma in_combine_both {A B : Type} (xs : list A) : forall (ys : list B) x y,
  In (x, y) (combine xs ys) -> In x xs /\ In y ys.
Proof.
  intros ys x y H. split.
  - eapply in_combine_l, H.
  - eapply in_combine_r, H.
Qed.

(** X4. For differences of shape N * K * D and a target distribution of
    shape N * K * M with K >= 1 and M >= 1 the method returns, the encoder
    delta has shape N * D, and the other two deltas are None. *)
Theorem X4_encoder_delta_shape (self : KMeansLoss)
    (observed_arr reconstructed_arr feature_arr : ndarray2)
    (delta_arr q_arr : ndarray3) (p_arr : ndarray2) (n k d m : nat) :
  rect3 n k d delta_arr -> rect3 n k m q_arr -> 1 <= k -> 1 <= m ->
  exists enc,
    compute_clustering_loss self observed_arr reconstructed_arr feature_arr
      delta_arr q_arr p_arr = Ok (enc, None, None) /\
    rect2 n d enc.
Proof.
  intros Hd Hq Hk Hm.
  destruct (assign_label_total n k m q_arr Hq Hk Hm) as [labels Hl].
  destruct (assign_label_shape n k m q_arr labels Hq Hl) as [Hlen Hlt].
  pose proof (delta_kmeans_ok n k d labels delta_arr Hd Hlen Hlt) as Hdk.
  eexists. split; [eapply compute_clustering_loss_eq; eassumption|].
  destruct Hd as [Hn Hrect]. unfold scale, np_nanmean_axis1, masked. split.
  - rewrite !length_map, length_combine. lia.
  - rewrite !Forall_map. apply Forall_forall. intros [l rows] Hin.
    apply in_combine_both in Hin. destruct Hin as [_ Hin]. cbn [fst snd].
    rewrite Forall_forall in Hrect. specialize (Hrect rows Hin).
    unfold columns. rewrite !length_map, length_seq, shape1_masked_rows.
    apply (rect2_shape1 k d); assumption.
Qed.

Lemma X4_witness :
  exists enc,
    compute_clustering_loss (__init__ None) [] [] [] ex_delta ex_q []
      = Ok (enc, None, None) /\
    rect2 2 1 enc.
Proof.
  apply (X4_encoder_delta_shape (__init__ None) [] [] [] ex_delta ex_q []
           2 2 1 1).
  - split; [reflexivity|]. repeat constructor.
  - split; [reflexivity|]. repeat constructor.
  - lia.
  - lia.
Defined.

(** *** The weight *)

Lemma binary_round_aux_opp s m e l :
  binary_round_aux prec emax (negb s) m e l
  = opp (binary_round_aux prec emax s m e l).
Proof.
  unfold binary_round_aux.
  destruct (shr_fexp prec emax m e l) as [mrs' e'].
  destruct (shr_fexp prec emax _ e' loc_Exact) as [mrs'' e''].
  destruct (shr_m mrs''); try reflexivity.
  destruct (_ <=? _)%Z; reflexivity.
Qed.

Lemma mul_opp_r x w : mul x (opp w) = opp (mul x w).
Proof.
  destruct x as [sx|sx| |sx mx ex], w as [sw|sw| |sw mw ew]; simpl;
    try reflexivity; try (destruct sx, sw; reflexivity).
  unfold mul, SFmul.
  replace (xorb sx (negb sw)) with (negb (xorb sx sw))
    by (destruct sx, sw; reflexivity).
  apply binary_round_aux_opp.
Qed.

(** X5. No sign is asked of the weight, and a negative one flips the
    result: with weight [-w] the method raises what it raises with [w], and
    otherwise every entry of the encoder delta is the exact opposite of the
    entry for [w]. *)
Theorem X5_opposite_weight (w : float64)
    (observed_arr reconstructed_arr feature_arr : ndarray2)
    (delta_arr q_arr : ndarray3) (p_arr : ndarray2) :
  compute_clustering_loss (__init__ (Some (opp w))) observed_arr
    reconstructed_arr feature_arr delta_arr q_arr p_arr
  = match compute_clustering_loss (__init__ (Some w)) observed_arr
            reconstructed_arr feature_arr delta_arr q_arr p_arr with
    | Ok (enc, dec, cen) => Ok (map (map opp) enc, dec, cen)
    | Raise e => Raise e
    end.
Proof.
  unfold compute_clustering_loss.
  destruct (__assign_label q_arr) as [labels|e]; [|reflexivity].
  cbn [bind]. destruct (delta_kmeans labels delta_arr) as [dk|e];
    [|reflexivity].
  cbn [bind __weight __init__]. unfold scale. rewrite map_map.
  do 3 f_equal. apply map_ext. intros row. rewrite map_map.
  apply map_ext. intros x. apply mul_opp_r.
Qed.

(** *** Every entry of the encoder delta *)

(** A property [P] that holds of the scaled mean of every masked slice
    whose entries satisfy [Q] holds of every entry of the encoder delta of
    differences whose entries satisfy [Q]. *)
Lemma encoder_delta_forall (P Q : float64 -> Prop) (w : float64)
    (n k d : nat) (labels : list nat) (delta_arr : ndarray3) :
  rect3 n k d delta_arr -> Forall (fun l => l < k) labels ->
  Forall (Forall (Forall Q)) delta_arr ->
  (forall l col x,
     nth_error col l = Some x -> length col = k -> Forall Q col ->
     P (mul (nanmean1 (mcol l col)) w)) ->
  Forall (Forall P) (scale w (np_nanmean_axis1 (masked labels delta_arr))).
Proof.
  intros [_ Hrect] Hlt HQ HP. unfold scale, np_nanmean_axis1, masked.
  rewrite !Forall_map. apply Forall_forall. intros [l rows] Hin.
  apply in_combine_both in Hin. destruct Hin as [Hl Hrows]. cbn [fst snd].
  rewrite Forall_forall in Hlt, Hrect, HQ.
  specialize (Hlt l Hl). destruct (Hrect rows Hrows) as [Hk Hcells].
  specialize (HQ rows Hrows).
  unfold columns. rewrite !Forall_map, shape1_masked_rows.
  rewrite (rect2_shape1 k d rows) by (try split; auto; lia).
  apply Forall_forall. intros dd Hdd. apply in_seq in Hdd.
  rewrite column_masked_rows.
  assert (Hlen : length (column nan rows dd) = k)
    by (unfold column; rewrite length_map; exact Hk).
  destruct (nth_error (column nan rows dd) l) as [x|] eqn:Ex.
  - apply (HP l _ x Ex Hlen).
    unfold column. apply Forall_map.
    rewrite Forall_forall in Hcells, HQ. apply Forall_forall.
    intros cell Hc. specialize (Hcells cell Hc). specialize (HQ cell Hc).
    rewrite Forall_forall in HQ. apply HQ, nth_In. lia.
  - apply nth_error_None in Ex. lia.
Qed.

Lemma of_nat_sign c : sign_is false (of_nat c).
Proof.
  unfold of_nat, of_Z, binary_normalize.
  destruct (Z.of_nat c) as [|p|p] eqn:E; try lia.
  - reflexivity.
  - apply binary_round_sign.
Qed.

Lemma div_sign_or_nan sx sy x y :
  sign_is sx x -> sign_is sy y ->
  is_nan (div x y) = true \/ sign_is (xorb sx sy) (div x y).
Proof.
  destruct y as [s2|s2| |s2 m2 e2]; intros Hx Hy; simpl in Hy;
    try contradiction; subst.
  - destruct x as [s1|s1| |s1 m1 e1]; simpl in Hx; try contradiction; subst;
      simpl; auto.
  - destruct x as [s1|s1| |s1 m1 e1]; simpl in Hx; try contradiction; subst;
      simpl; auto.
  - right. apply div_sign. exact Hx.
Qed.

Lemma mul_sign_or_nan sx sy x y :
  sign_is sx x -> sign_is sy y ->
  is_nan (mul x y) = true \/ sign_is (xorb sx sy) (mul x y).
Proof.
  destruct x as [s1|s1| |s1 m1 e1], y as [s2|s2| |s2 m2 e2];
    intros Hx Hy; simpl in Hx, Hy; try contradiction; subst; simpl; auto.
  right. apply binary_round_aux_sign. lia.
Qed.

(** X6. With a weight that is a number of positive sign (zero and infinity
    included), no entry of the encoder delta is negative: each is NaN or has
    its sign bit clear. *)
Theorem X6_encoder_delta_not_negative (self : KMeansLoss)
    (observed_arr reconstructed_arr feature_arr : ndarray2)
    (delta_arr q_arr : ndarray3) (p_arr : ndarray2) (n k d m : nat) :
  rect3 n k d delta_arr -> rect3 n k m q_arr -> 1 <= k -> 1 <= m ->
  sign_is false (__weight self) ->
  exists enc,
    compute_clustering_loss self observed_arr reconstructed_arr feature_arr
      delta_arr q_arr p_arr = Ok (enc, None, None) /\
    Forall (Forall (fun e => is_nan e = true \/ sign_is false e)) enc.
Proof.
  intros Hd Hq Hk Hm Hw.
  destruct (assign_label_total n k m q_arr Hq Hk Hm) as [labels Hl].
  destruct (assign_label_shape n k m q_arr labels Hq Hl) as [Hlen Hlt].
  pose proof (delta_kmeans_ok n k d labels delta_arr Hd Hlen Hlt) as Hdk.
  eexists. split; [eapply compute_clustering_loss_eq; eassumption|].
  apply (encoder_delta_forall _ (fun _ => True) _ n k d); auto.
  - apply Forall_forall. intros rows _. apply Forall_forall. intros cell _.
    apply Forall_forall. auto.
  - intros l col x Hx _ _. rewrite (nanmean1_mcol l col x Hx).
    destruct (div_sign_or_nan false false _ _ (selected_sign x)
                (of_nat_sign (length col - count_nan (mcol l col))))
      as [Hnan|Hs].
    + left. destruct (div _ _); try discriminate. reflexivity.
    + apply (mul_sign_or_nan false false); assumption.
Qed.

Lemma X6_witness :
  exists enc,
    compute_clustering_loss (__init__ None) [] [] [] ex_delta ex_q []
      = Ok (enc, None, None) /\
    Forall (Forall (fun e => is_nan e = true \/ sign_is false e)) enc.
Proof.
  apply (X6_encoder_delta_not_negative (__init__ None) [] [] []
           ex_delta ex_q [] 2 2 1 1).
  - split; [reflexivity|]. repeat constructor.
  - split; [reflexivity|]. repeat constructor.
  - lia.
  - lia.
  - reflexivity.
Defined.

(** X7. When every entry of delta_arr is a zero (of either sign) and the
    weight is finite, every entry of the encoder delta is a zero, whatever
    the target distribution and its labels are (K below 2^53). *)
Theorem X7_zero_differences (self : KMeansLoss)
    (observed_arr reconstructed_arr feature_arr : ndarray2)
    (delta_arr q_arr : ndarray3) (p_arr : ndarray2) (n k d m : nat) :
  rect3 n k d delta_arr -> rect3 n k m q_arr -> 1 <= k -> 1 <= m ->
  (Z.of_nat k < 2 ^ 53)%Z ->
  Forall (Forall (Forall (fun x => is_zero x = true))) delta_arr ->
  is_finite (__weight self) = true ->
  exists enc,
    compute_clustering_loss self observed_arr reconstructed_arr feature_arr
      delta_arr q_arr p_arr = Ok (enc, None, None) /\
    Forall (Forall (fun e => is_zero e = true)) enc.
Proof.
  intros Hd Hq Hk Hm Hbig Hzero Hw.
  destruct (assign_label_total n k m q_arr Hq Hk Hm) as [labels Hl].
  destruct (assign_label_shape n k m q_arr labels Hq Hl) as [Hlen Hlt].
  pose proof (delta_kmeans_ok n k d labels delta_arr Hd Hlen Hlt) as Hdk.
  eexists. split; [eapply compute_clustering_loss_eq; eassumption|].
  apply (encoder_delta_forall _ (fun x => is_zero x = true) _ n k d); auto.
  intros l col x Hx Hlen' Hcol.
  assert (Htame : tame_others l col).
  { intros j y _ Hy. right. rewrite Forall_forall in Hcol.
    specialize (Hcol y (nth_error_In _ _ Hy)).
    destruct y as [s| | |]; try discriminate. destruct s; reflexivity. }
  assert (Hnone : count_nan col = 0).
  { unfold count_nan. clear - Hcol.
    induction Hcol as [|y col Hy _ IH]; [reflexivity|]. simpl.
    destruct y; try discriminate. exact IH. }
  rewrite (nanmean1_mcol l col x Hx), (count_nan_mcol l col Htame), Hnone.
  rewrite Nat.sub_0_r, Hlen'.
  destruct (of_nat_finite k Hk Hbig) as [mk [ek ->]].
  rewrite Forall_forall in Hcol. specialize (Hcol x (nth_error_In _ _ Hx)).
  destruct x as [s| | |]; try discriminate.
  replace (nan_to_zero (mul one (square (S754_zero s)))) with zero
    by (destruct s; reflexivity).
  rewrite div_zero_finite.
  destruct (__weight self); try discriminate; reflexivity.
Qed.

Lemma X7_witness :
  exists enc,
    compute_clustering_loss (__init__ None) [] [] []
      [ [ [zero]; [S754_zero true] ]; [ [zero]; [zero] ] ] ex_q []
      = Ok (enc, None, None) /\
    Forall (Forall (fun e => is_zero e = true)) enc.
Proof.
  apply (X7_zero_differences (__init__ None) [] [] []
           [ [ [zero]; [S754_zero true] ]; [ [zero]; [zero] ] ] ex_q []
           2 2 1 1).
  - split; [reflexivity|]. repeat constructor.
  - split; [reflexivity|]. repeat constructor.
  - lia.
  - lia.
  - reflexivity.
  - repeat constructor.
  - reflexivity.
Defined.

(** *** One cluster *)

(** X8. With a single cluster (K = 1) every label is 0, so nothing is
    masked out, and the tolerant mean has nothing to fall back on: the
    entry [n, d] of the encoder delta is NaN when [delta_arr[n, 0, d]] is,
    and for a finite non-zero weight only then. *)
Theorem X8_single_cluster (self : KMeansLoss)
    (observed_arr reconstructed_arr feature_arr : ndarray2)
    (delta_arr q_arr : ndarray3) (p_arr : ndarray2) (n d m : nat)
    (i dd : nat) (cell : ndarray1) (x : float64) :
  rect3 n 1 d delta_arr -> rect3 n 1 m q_arr -> 1 <= m ->
  nth_error delta_arr i = Some [cell] -> nth_error cell dd = Some x ->
  exists enc row e,
    __assign_label q_arr = Ok (repeat 0 n) /\
    compute_clustering_loss self observed_arr reconstructed_arr feature_arr
      delta_arr q_arr p_arr = Ok (enc, None, None) /\
    nth_error enc i = Some row /\
    nth_error row dd = Some e /\
    (is_nan x = true -> e = nan) /\
    (is_nan x = false -> is_regular (__weight self) = true ->
     is_nan e = false).
Proof.
  intros Hd Hq Hm Hrows Hx.
  destruct (assign_label_total n 1 m q_arr Hq (le_n 1) Hm) as [labels Hl].
  destruct (assign_label_shape n 1 m q_arr labels Hq Hl) as [Hlen Hlt].
  assert (Hrep : labels = repeat 0 n).
  { subst n. clear - Hlt. induction Hlt as [|l labels Hl0 _ IH]; [reflexivity|].
    simpl. rewrite <- IH. f_equal. lia. }
  subst labels.
  assert (Hi : i < n).
  { destruct Hd as [<- _]. apply nth_error_Some. rewrite Hrows. discriminate. }
  assert (Hlab : nth_error (repeat 0 n) i = Some 0)
    by (apply nth_error_repeat; exact Hi).
  assert (Hdd : dd < d).
  { pose proof (rect3_row n 1 d delta_arr i [cell] Hd Hrows) as [_ Hc].
    inversion Hc as [|? ? Hlen' _]; subst.
    apply nth_error_Some. rewrite Hx. discriminate. }
  assert (Hcol : nth_error (column nan [cell] dd) 0 = Some x).
  { simpl. f_equal. apply nth_error_nth. exact Hx. }
  destruct (masked_entry self observed_arr reconstructed_arr feature_arr
              delta_arr q_arr p_arr n 1 d m (repeat 0 n) i 0 [cell] dd x
              Hd Hq Hl Hlab Hrows Hdd Hcol)
    as [dk [mrows [enc [row [_ [_ [Hmc [H1 [H2 H3]]]]]]]]].
  exists enc, row. eexists. split; [exact Hl|]. split; [exact H1|].
  split; [exact H2|]. split; [exact H3|].
  rewrite Hmc. simpl column. rewrite (nth_error_nth cell dd nan Hx).
  unfold mcol, one_hot_row. cbn [length seq map combine fst snd].
  change (hot 0 0) with one. unfold count_nan. cbn [filter].
  unfold nan_to_zero. rewrite selected_is_nan. split.
  - intros Hnan. rewrite Hnan. cbn [length Nat.sub].
    rewrite of_nat_0, div_zero_zero. apply mul_nan_l.
  - intros Hnan Hw. rewrite Hnan. cbn [length Nat.sub].
    rewrite mul_regular_is_nan by exact Hw.
    pose proof (mul_one_sign _ (square_sign x Hnan)) as Hv.
    eapply sign_is_not_nan.
    apply (div_sign false _ false 4503599627370496 (-52) Hv).
Qed.

Lemma X8_witness :
  exists enc row e,
    __assign_label [ [ [one] ]; [ [one] ] ] = Ok (repeat 0 2) /\
    compute_clustering_loss (__init__ None) [] [] []
      [ [ [of_Z 3] ]; [ [nan] ] ] [ [ [one] ]; [ [one] ] ] []
      = Ok (enc, None, None) /\
    nth_error enc 1 = Some row /\
    nth_error row 0 = Some e /\
    (is_nan nan = true -> e = nan) /\
    (is_nan nan = false -> is_regular (__weight (__init__ None)) = true ->
     is_nan e = false).
Proof.
  apply (X8_single_cluster (__init__ None) [] [] []
           [ [ [of_Z 3] ]; [ [nan] ] ] [ [ [one] ]; [ [one] ] ] []
           2 1 1 1 0 [nan] nan).
  - split; [reflexivity|]. repeat constructor.
  - split; [reflexivity|]. repeat constructor.
  - lia.
  - reflexivity.
  - reflexivity.
Defined.

(** *** What the result depends on *)

(** X9. Only the selected difference and the number of NaN count.  Take two
    arrays of differences of one shape, used with the same target
    distribution, whose slices [n, :, d] hold the same selected entry and as
    many NaN, the masked-out entries being NaN or of finite square: the
    entries [n, d] of the two encoder deltas are equal. *)
Theorem X9_masked_out_values_do_not_matter (self : KMeansLoss)
    (observed_arr reconstructed_arr feature_arr : ndarray2)
    (delta_arr delta_arr' q_arr : ndarray3) (p_arr : ndarray2)
    (N K D M : nat) (labels : list nat) (n l : nat)
    (rows rows' : ndarray2) (d : nat) (x : float64) :
  rect3 N K D delta_arr -> rect3 N K D delta_arr' -> rect3 N K M q_arr ->
  __assign_label q_arr = Ok labels -> nth_error labels n = Some l ->
  nth_error delta_arr n = Some rows -> nth_error delta_arr' n = Some rows' ->
  d < D ->
  nth_error (column nan rows d) l = Some x ->
  nth_error (column nan rows' d) l = Some x ->
  tame_others l (column nan rows d) -> tame_others l (column nan rows' d) ->
  count_nan (column nan rows d) = count_nan (column nan rows' d) ->
  exists enc enc' row row' e,
    compute_clustering_loss self observed_arr reconstructed_arr feature_arr
      delta_arr q_arr p_arr = Ok (enc, None, None) /\
    compute_clustering_loss self observed_arr reconstructed_arr feature_arr
      delta_arr' q_arr p_arr = Ok (enc', None, None) /\
    nth_error enc n = Some row /\ nth_error enc' n = Some row' /\
    nth_error row d = Some e /\ nth_error row' d = Some e.
Proof.
  intros Hd Hd' Hq Hl Hn Hrows Hrows' Hlt Hx Hx' Ht Ht' Hcount.
  destruct (masked_entry self observed_arr reconstructed_arr feature_arr
              delta_arr q_arr p_arr N K D M labels n l rows d x
              Hd Hq Hl Hn Hrows Hlt Hx)
    as [dk [mrows [enc [row [_ [_ [Hcol [H1 [H2 H3]]]]]]]]].
  destruct (masked_entry self observed_arr reconstructed_arr feature_arr
              delta_arr' q_arr p_arr N K D M labels n l rows' d x
              Hd' Hq Hl Hn Hrows' Hlt Hx')
    as [dk' [mrows' [enc' [row' [_ [_ [Hcol' [H1' [H2' H3']]]]]]]]].
  exists enc, enc', row, row'. eexists.
  split; [exact H1|]. split; [exact H1'|]. split; [exact H2|].
  split; [exact H2'|]. split; [exact H3|].
  rewrite H3'. rewrite Hcol, Hcol'.
  rewrite (count_nan_mcol l _ Ht), (count_nan_mcol l _ Ht'), Hcount.
  reflexivity.
Qed.

Lemma X9_witness :
  exists enc enc' row row' e,
    compute_clustering_loss (__init__ None) [] [] []
      [ [ [of_Z 2]; [nan]; [of_Z 3] ] ] q_first_of_three []
      = Ok (enc, None, None) /\
    compute_clustering_loss (__init__ None) [] [] []
      [ [ [of_Z 2]; [of_Z 7]; [nan] ] ] q_first_of_three []
      = Ok (enc', None, None) /\
    nth_error enc 0 = Some row /\ nth_error enc' 0 = Some row' /\
    nth_error row 0 = Some e /\ nth_error row' 0 = Some e.
Proof.
  apply (X9_masked_out_values_do_not_matter (__init__ None) [] [] []
           [ [ [of_Z 2]; [nan]; [of_Z 3] ] ]
           [ [ [of_Z 2]; [of_Z 7]; [nan] ] ] q_first_of_three []
           1 3 1 1 [0] 0 0 [ [of_Z 2]; [nan]; [of_Z 3] ]
           [ [of_Z 2]; [of_Z 7]; [nan] ] 0 (of_Z 2)).
  - split; [reflexivity|]. repeat constructor.
  - split; [reflexivity|]. repeat constructor.
  - split; [reflexivity|]. repeat constructor.
  - vm_compute. reflexivity.
  - reflexivity.
  - reflexivity.
  - reflexivity.
  - lia.
  - reflexivity.
  - reflexivity.
  - intros [|[|[|j]]] y Hj Hy; simpl in Hy.
    + lia.
    + injection Hy as <-. left. reflexivity.
    + injection Hy as <-. right. vm_compute. reflexivity.
    + destruct j; discriminate.
  - intros [|[|[|j]]] y Hj Hy; simpl in Hy.
    + lia.
    + injection Hy as <-. right. vm_compute. reflexivity.
    + injection Hy as <-. left. reflexivity.
    + destruct j; discriminate.
  - reflexivity.
Defined.

(** *** Sample axes of extent 1 *)

Lemma mapM_repeat {A B : Type} (f : A -> result B) x n :
  mapM f (repeat x (S n)) = y <- f x ;; Ok (repeat y (S n)).
Proof.
  induction n as [|n IH].
  - simpl. destruct (f x); reflexivity.
  - change (repeat x (S (S n))) with (x :: repeat x (S n)).
    cbn [mapM]. rewrite IH. destruct (f x); reflexivity.
Qed.

Lemma mapM_combine_repeat_l {A B C : Type} (f : A -> B -> result C) x :
  forall ys,
  mapM (fun xy => f (fst xy) (snd xy)) (combine (repeat x (length ys)) ys)
  = mapM (f x) ys.
Proof.
  induction ys as [|y ys IH]; simpl; [reflexivity|].
  rewrite IH. reflexivity.
Qed.

Lemma mapM_combine_repeat_r {A B C : Type} (f : A -> B -> result C) y :
  forall xs,
  mapM (fun xy => f (fst xy) (snd xy)) (combine xs (repeat y (length xs)))
  = mapM (fun x => f x y) xs.
Proof.
  induction xs as [|x xs IH]; simpl; [reflexivity|].
  rewrite IH. reflexivity.
Qed.

(** A single operand on the left of a broadcast is repeated. *)
Lemma broadcast_repeat_l {A B C : Type} (f : A -> B -> result C) x ys :
  broadcast f [x] ys = broadcast f (repeat x (length ys)) ys.
Proof.
  rewrite broadcast_singleton. unfold broadcast.
  rewrite repeat_length, Nat.eqb_refl. symmetry.
  apply mapM_combine_repeat_l.
Qed.

(** A single operand on the right of a broadcast is repeated. *)
Lemma broadcast_repeat_r {A B C : Type} (f : A -> B -> result C) xs y :
  broadcast f xs [y] = broadcast f xs (repeat y (length xs)).
Proof.
  unfold broadcast at 2. rewrite repeat_length, Nat.eqb_refl.
  rewrite mapM_combine_repeat_r. unfold broadcast.
  destruct xs as [|x [|x' xs]]; reflexivity.
Qed.

Lemma assign_label_repeat (q_row : ndarray2) n :
  __assign_label (repeat q_row (S n))
  = labels <- __assign_label [q_row] ;;
    Ok (repeat (hd 0 labels) (S n)).
Proof.
  unfold __assign_label, collapse_trailing.
  change (shape2 (repeat q_row (S n))) with (shape2 [q_row]).
  destruct (1 <? shape2 [q_row]).
  - cbn [bind]. unfold np_nanmean_axis2, argmax_axis1.
    rewrite map_repeat, mapM_repeat. cbn [map mapM].
    destruct (argmax1 (map nanmean1 q_row)); reflexivity.
  - unfold reshape_3_to_2, argmax_axis1. rewrite mapM_repeat. cbn [mapM].
    destruct (mapM _ q_row) as [row|e]; cbn [bind]; [|reflexivity].
    rewrite mapM_repeat. cbn [mapM].
    destruct (argmax1 row); reflexivity.
Qed.

Lemma one_hot_mask_repeat l k n :
  one_hot_mask (repeat l (S n)) k
  = mask <- one_hot_mask [l] k ;; Ok (repeat (hd [] mask) (S n)).
Proof.
  destruct (Nat.lt_ge_cases l k) as [Hl|Hl].
  - rewrite !one_hot_mask_ok by (apply Forall_forall; intros x Hx;
      apply repeat_spec in Hx || (destruct Hx as [<-|[]]); subst; exact Hl).
    cbn [bind]. unfold one_hot. rewrite map_repeat. reflexivity.
  - rewrite !one_hot_mask_out_of_range
      by (apply Exists_cons_hd; exact Hl).
    reflexivity.
Qed.

(** X10. A target distribution with a single sample is not rejected when
    delta_arr has several: its label is used for every sample of delta_arr.
    The method does exactly what it does when the single row of q_arr is
    repeated once per sample of delta_arr, exceptions included. *)
Theorem X10_single_target_row_is_repeated (self : KMeansLoss)
    (observed_arr reconstructed_arr feature_arr : ndarray2)
    (delta_arr : ndarray3) (q_row : ndarray2) (p_arr : ndarray2) :
  delta_arr <> [] ->
  compute_clustering_loss self observed_arr reconstructed_arr feature_arr
    delta_arr [q_row] p_arr
  = compute_clustering_loss self observed_arr reconstructed_arr feature_arr
      delta_arr (repeat q_row (length delta_arr)) p_arr.
Proof.
  intros Hne. destruct delta_arr as [|rows delta_arr]; [congruence|].
  set (delta := rows :: delta_arr).
  change (length delta) with (S (length delta_arr)).
  unfold compute_clustering_loss. rewrite assign_label_repeat.
  destruct (__assign_label [q_row]) as [labels|e] eqn:El; [|reflexivity].
  cbn [bind].
  assert (Hone : labels = [hd 0 labels]).
  { unfold __assign_label in El.
    destruct (collapse_trailing [q_row]) as [q2|e] eqn:Ec; [|discriminate].
    apply collapse_trailing_lengths in Ec. cbn [bind] in El.
    apply mapM_Forall2 in El. apply Forall2_length in Ec, El.
    pose proof (eq_trans Ec El) as E1.
    destruct labels as [|l [|l' labels]]; try discriminate E1.
    reflexivity. }
  rewrite Hone at 1. unfold delta_kmeans.
  rewrite one_hot_mask_repeat.
  destruct (one_hot_mask [hd 0 labels] (shape1 delta)) as [mask|e] eqn:Em;
    [|reflexivity].
  cbn [bind].
  assert (Hmask : mask = [hd [] mask]).
  { unfold one_hot_mask in Em.
    destruct (fill_one_hot _ 0 [hd 0 labels]) as [t|e] eqn:Et;
      [|discriminate].
    injection Em as <-. cbn [fill_one_hot] in Et.
    destruct (setitem2 _ 0 (hd 0 labels) one) as [t'|e] eqn:Es;
      [|discriminate].
    cbn [bind] in Et. injection Et as <-.
    simpl in Es. destruct (setitem1 _ _ _); [|discriminate].
    injection Es as <-. reflexivity. }
  rewrite Hmask at 1. unfold np_multiply3.
  rewrite broadcast_repeat_l. unfold np_square, delta.
  rewrite !length_map. reflexivity.
Qed.

Lemma X10_witness :
  compute_clustering_loss (__init__ None) [] [] [] ex_delta
    [ [ [dec 9 10]; [dec 1 10] ] ] []
  = compute_clustering_loss (__init__ None) [] [] [] ex_delta
      (repeat [ [dec 9 10]; [dec 1 10] ] (length ex_delta)) [].
Proof.
  apply (X10_single_target_row_is_repeated (__init__ None) [] [] []
           ex_delta [ [dec 9 10]; [dec 1 10] ] []).
  discriminate.
Defined.

(** X11. Differences with a single sample are not rejected when q_arr has
    several: the one sample of delta_arr is used for every label.  The
    method does exactly what it does when that sample is repeated once per
    sample of q_arr, exceptions included. *)
Theorem X11_single_difference_row_is_repeated (self : KMeansLoss)
    (observed_arr reconstructed_arr feature_arr : ndarray2)
    (rows : ndarray2) (q_arr : ndarray3) (p_arr : ndarray2) :
  compute_clustering_loss self observed_arr reconstructed_arr feature_arr
    [rows] q_arr p_arr
  = compute_clustering_loss self observed_arr reconstructed_arr feature_arr
      (repeat rows (length q_arr)) q_arr p_arr.
Proof.
  unfold compute_clustering_loss.
  destruct (__assign_label q_arr) as [labels|e] eqn:El; [|reflexivity].
  cbn [bind].
  assert (Hlen : length labels = length q_arr).
  { unfold __assign_label in El.
    destruct (collapse_trailing q_arr) as [q2|e] eqn:Ec; [|discriminate].
    apply collapse_trailing_lengths in Ec. cbn [bind] in El.
    apply mapM_Forall2 in El. apply Forall2_length in Ec, El.
    symmetry. exact (eq_trans Ec El). }
  rewrite <- Hlen. destruct labels as [|l labels].
  - reflexivity.
  - assert (Hmask : forall mask,
              one_hot_mask (l :: labels) (length rows) = Ok mask ->
              length mask = length (l :: labels)).
    { intros mask Hm. destruct (Forall_Exists_dec (fun x => x < length rows)
                                  (fun x => lt_dec x (length rows))
                                  (l :: labels)) as [Hall|Hex].
      - rewrite one_hot_mask_ok in Hm by exact Hall. injection Hm as <-.
        cbn [one_hot map length]. f_equal. apply length_map.
      - rewrite one_hot_mask_out_of_range in Hm; [discriminate|].
        eapply Exists_impl; [|exact Hex]. intros x Hx. simpl in Hx. lia. }
    unfold delta_kmeans.
    change (shape1 (repeat rows (length (l :: labels)))) with (length rows).
    change (shape1 [rows]) with (length rows).
    destruct (one_hot_mask (l :: labels) (length rows)) as [mask|e] eqn:Em;
      [|reflexivity].
    cbn [bind]. specialize (Hmask mask eq_refl).
    unfold np_multiply3, np_square. rewrite map_repeat. cbn [map].
    rewrite broadcast_repeat_r, Hmask. reflexivity.
Qed.

Lemma X11_witness :
  compute_clustering_loss (__init__ None) [] [] []
    [ [ [of_Z 1]; [of_Z 3] ] ] ex_q []
  = compute_clustering_loss (__init__ None) [] [] []
      (repeat [ [of_Z 1]; [of_Z 3] ] (length ex_q)) ex_q [].
Proof.
  apply (X11_single_difference_row_is_repeated (__init__ None) [] [] []
           [ [of_Z 1]; [of_Z 3] ] ex_q []).
Defined.

(** *** Rows without a preference *)

(** X12. A sample whose row of the N * K matrix that [argmax] receives is
    constant, all entries NaN included, gets label 0.  For q_arr of shape
    N * K * M with 1 <= M < 8 that matrix is the collapsed q_arr and the
    labels are those of [__assign_label]. *)
Theorem X12_constant_row_gets_label_0 (n k : nat) (q2 : ndarray2)
    (i : nat) (v : float64) :
  rect2 n k q2 -> 1 <= k ->
  nth_error q2 i = Some (repeat v k) ->
  exists labels,
    argmax_axis1 q2 = Ok labels /\
    nth_error labels i = Some 0 /\
    (forall (m : nat) (q_arr : ndarray3),
       rect3 n k m q_arr -> 1 <= m -> m < 8 -> collapsed q_arr = q2 ->
       __assign_label q_arr = Ok labels).
Proof.
  intros Hrect Hk Hrow.
  destruct (argmax_axis1_rect n k q2 Hrect Hk) as [labels Ha].
  pose proof Ha as Ha'. apply mapM_Forall2 in Ha'.
  destruct (Forall2_nth_error_l _ _ _ Ha' i _ Hrow) as [a [Hi Harg]].
  exists labels. split; [exact Ha|]. split.
  - apply argmax1_np_max in Harg. destruct Harg as [Hlt [_ Hfirst]].
    rewrite repeat_length in Hlt.
    destruct a as [|a]; [exact Hi|]. exfalso.
    specialize (Hfirst 0 ltac:(lia)).
    rewrite !nth_repeat_lt in Hfirst by lia.
    unfold np_lt, np_le in Hfirst.
    destruct (is_nan v) eqn:Ev; [discriminate|].
    rewrite leb_refl in Hfirst by exact Ev. discriminate.
  - intros m q_arr Hq Hm _ Hcol.
    apply (assign_label_collapsed n k m q_arr q2 labels Hq Hm Hcol Ha).
Qed.

(** Three clusters with different estimates and the same mean. *)
Lemma X12_witness :
  exists labels,
    argmax_axis1 [ repeat (of_Z 2) 3 ] = Ok labels /\
    nth_error labels 0 = Some 0 /\
    __assign_label q_equal_means = Ok labels.
Proof.
  destruct (X12_constant_row_gets_label_0 1 3 [ repeat (of_Z 2) 3 ] 0
              (of_Z 2)) as [labels [Ha [Hi Hq]]].
  - split; [reflexivity|]. repeat constructor.
  - lia.
  - reflexivity.
  - exists labels. split; [exact Ha|]. split; [exact Hi|].
    apply (Hq 2 q_equal_means).
    + split; [reflexivity|]. repeat constructor.
    + lia.
    + lia.
    + vm_compute. reflexivity.
Defined.

(** *** Which exception, and when *)

Lemma broadcast_raise {A B C : Type} (f : A -> B -> result C) xs ys e :
  broadcast f xs ys = Raise e ->
  e = ValueError \/ exists x y, f x y = Raise e.
Proof.
  unfold broadcast. destruct (length xs =? length ys).
  - intros H. apply mapM_raise in H. destruct H as [[x y] [_ H]].
    right. exists x, y. exact H.
  - destruct xs as [|x [|x' xs]].
    + destruct ys as [|y [|y' ys]]; intros H; try (injection H as <-; auto).
      discriminate.
    + intros H. apply mapM_raise in H. destruct H as [y [_ H]].
      right. exists x, y. exact H.
    + destruct ys as [|y [|y' ys]]; intros H; try (injection H as <-; auto).
      apply mapM_raise in H. destruct H as [x0 [_ H]].
      right. exists x0, y. exact H.
Qed.

Lemma np_multiply3_raise a b e : np_multiply3 a b = Raise e -> e = ValueError.
Proof.
  unfold np_multiply3. intros H.
  apply broadcast_raise in H. destruct H as [H|[x [y H]]]; [exact H|].
  apply broadcast_raise in H. destruct H as [H|[x' [y' H]]]; [exact H|].
  apply broadcast_raise in H. destruct H as [H|[x'' [y'' H]]]; [exact H|].
  discriminate.
Qed.

Lemma assign_label_raise q_arr e :
  __assign_label q_arr = Raise e -> e = ValueError.
Proof.
  unfold __assign_label, collapse_trailing. intros H.
  assert (Harg : forall q2, argmax_axis1 q2 = Raise e -> e = ValueError).
  { intros q2 Hq. apply mapM_raise in Hq. destruct Hq as [row [_ Hq]].
    destruct row; simpl in Hq; [|discriminate]. congruence. }
  destruct (1 <? shape2 q_arr).
  - cbn [bind] in H. eapply Harg, H.
  - destruct (reshape_3_to_2 q_arr) as [q2|e'] eqn:E; cbn [bind] in H.
    + eapply Harg, H.
    + injection H as ->. apply mapM_raise in E. destruct E as [rows [_ E]].
      apply mapM_raise in E. destruct E as [cell [_ E]].
      destruct cell as [|x [|y cell]]; congruence.
Qed.

(** X13. The method raises IndexError exactly when label assignment
    returns and one of the labels is not below the extent of the cluster
    axis of delta_arr: neither label assignment nor the broadcast product
    raises it. *)
Theorem X13_index_error_iff_label_out_of_range (self : KMeansLoss)
    (observed_arr reconstructed_arr feature_arr : ndarray2)
    (delta_arr q_arr : ndarray3) (p_arr : ndarray2) :
  compute_clustering_loss self observed_arr reconstructed_arr feature_arr
    delta_arr q_arr p_arr = Raise IndexError <->
  exists labels,
    __assign_label q_arr = Ok labels /\
    Exists (fun l => shape1 delta_arr <= l) labels.
Proof.
  split.
  - unfold compute_clustering_loss. intros H.
    destruct (__assign_label q_arr) as [labels|e] eqn:El; cbn [bind] in H.
    + exists labels. split; [reflexivity|].
      destruct (Forall_Exists_dec (fun l => l < shape1 delta_arr)
                  (fun l => lt_dec l (shape1 delta_arr)) labels)
        as [Hall|Hex].
      * exfalso. unfold delta_kmeans in H.
        rewrite one_hot_mask_ok in H by exact Hall. cbn [bind] in H.
        destruct (np_multiply3 _ _) as [dk|e] eqn:Em; cbn [bind] in H;
          [discriminate|].
        apply np_multiply3_raise in Em. congruence.
      * eapply Exists_impl; [|exact Hex]. intros l Hl. simpl in Hl. lia.
    + apply assign_label_raise in El. congruence.
  - intros [labels [Hl Hex]]. unfold compute_clustering_loss, delta_kmeans.
    rewrite Hl. cbn [bind].
    rewrite one_hot_mask_out_of_range by exact Hex. reflexivity.
Qed.
